(** * Benchmark metrics pipeline: CSV parsing, aggregation, report and charts

    A shallow embedding of [scripts/benchmark_resources/generate_report.py]
    and [benchmark_resources/compare_results.py], and the properties of the
    metrics pipeline checked against it; the prime search of
    [benchmark_resources/cpu_prime.py] follows in [Prime].

    Conventions.
    - Python [str] is [string], the bytes of its UTF-8 encoding: searching,
      splitting and joining go by bytes, [strip] and [float] by the
      characters read off them.
    - Python [float] is the kernel's binary64 [float]; the integer literals
      [0] and [1] that the code mixes with floats are their float values
      (they compare equal and format identically).
    - Python [None] in a CSV cell or a dictionary key is [None : option string].
    - An exception is a value of [Py.exn]; code that can raise returns
      [Py.result]. *)

From Stdlib Require Import ZArith String Ascii List PrimFloat FloatClass SpecFloat FloatOps DecimalString.
From Stdlib Require FloatAxioms Znumtheory Sorted.
From stdpp Require Import base option list gmap strings.

#[local] Open Scope Z_scope.

(** ** The Python built-ins the two scripts call *)

Module Py.

Inductive exn : Type :=
| KeyError (key : string)
| ValueError
| TypeError
| IndexError.

Inductive result (A : Type) : Type :=
| Ok (a : A)
| Raise (e : exn).
Arguments Ok {A} a.
Arguments Raise {A} e.

#[export] Instance result_ret : MRet result := fun A a => Ok a.
#[export] Instance result_bind : MBind result := fun A B f m =>
  match m with
  | Ok a => f a
  | Raise e => Raise e
  end.
#[export] Instance result_fmap : FMap result := fun A B f m =>
  match m with
  | Ok a => Ok (f a)
  | Raise e => Raise e
  end.

(** The computation ends without raising. *)
Definition returns {A : Type} (m : result A) : Prop := exists a, m = Ok a.

(** A [for] loop whose body may raise: the loop stops at the first
    exception and the exception leaves the loop. *)
Fixpoint for_each {A S : Type} (body : S -> A -> result S) (items : list A) (s : S)
  : result S :=
  match items with
  | [] => Ok s
  | x :: rest =>
      match body s x with
      | Ok s' => for_each body rest s'
      | Raise e => Raise e
      end
  end.

(** A list comprehension whose expression may raise. *)
Fixpoint comprehension {A B : Type} (f : A -> result B) (items : list A)
  : result (list B) :=
  match items with
  | [] => Ok []
  | x :: rest =>
      match f x with
      | Ok y =>
          match comprehension f rest with
          | Ok ys => Ok (y :: ys)
          | Raise e => Raise e
          end
      | Raise e => Raise e
      end
  end.

(** *** dict: insertion-ordered, keys unique *)

Section dict.
Context {K V : Type} `{EqDecision K}.

(** [d.get(k)], [None] when the key is absent. *)
Fixpoint dict_get (k : K) (d : list (K * V)) : option V :=
  match d with
  | [] => None
  | (k', v) :: d' => if decide (k' = k) then Some v else dict_get k d'
  end.

(** [d[k]] *)
Definition getitem (show : K -> string) (k : K) (d : list (K * V)) : result V :=
  match dict_get k d with
  | Some v => Ok v
  | None => Raise (KeyError (show k))
  end.

(** [d[k] = v]: an existing key keeps its position, a new key goes last. *)
Fixpoint setitem (k : K) (v : V) (d : list (K * V)) : list (K * V) :=
  match d with
  | [] => [(k, v)]
  | (k', v') :: d' =>
      if decide (k' = k) then (k, v) :: d' else (k', v') :: setitem k v d'
  end.

(** The value under [k] replaced by [f] of it (a mutation of the object
    stored under [k]). *)
Fixpoint update (f : V -> V) (k : K) (d : list (K * V)) : list (K * V) :=
  match d with
  | [] => []
  | (k', v) :: d' =>
      if decide (k' = k) then (k', f v) :: d' else (k', v) :: update f k d'
  end.
End dict.

(** *** str *)

(** [sub in s] *)
Fixpoint str_in (sub s : string) : bool :=
  String.prefix sub s ||
  match s with
  | EmptyString => false
  | String _ s' => str_in sub s'
  end.

(** [s.startswith(p)] *)
Definition startswith (p s : string) : bool := String.prefix p s.

(** [s.split(sep)] for a one-character separator: never the empty list. *)
Fixpoint split (sep : ascii) (s : string) : list string :=
  match s with
  | EmptyString => [EmptyString]
  | String c s' =>
      if Ascii.eqb c sep then EmptyString :: split sep s'
      else match split sep s' with
           | w :: ws => String c w :: ws
           | [] => [String c EmptyString]
           end
  end.

(** A [str] is held as the bytes of its UTF-8 encoding; the operations
    that go by character ([strip], [float]) read the code points off them. *)

(** The payload of a continuation byte at the head of [s], and the rest. *)
Definition continuation (s : string) : option (N * string) :=
  match s with
  | String c s' =>
      let n := N_of_ascii c in
      if ((128 <=? n) && (n <? 192))%N then Some ((n - 128)%N, s') else None
  | EmptyString => None
  end.

(** The code point of a sequence of two, three or four bytes whose first
    byte is [n]; none for a sequence that is cut short, longer than needed, a
    surrogate or beyond U+10FFFF. *)
Definition decode2 (n : N) (rest : string) : option N :=
  '(x1, _) ← continuation rest;
  Some ((n - 192) * 64 + x1)%N.

Definition decode3 (n : N) (rest : string) : option N :=
  '(x1, r1) ← continuation rest;
  '(x2, _) ← continuation r1;
  let cp := (((n - 224) * 64 + x1) * 64 + x2)%N in
  if ((2048 <=? cp) && negb ((55296 <=? cp) && (cp <=? 57343)))%N
  then Some cp else None.

Definition decode4 (n : N) (rest : string) : option N :=
  '(x1, r1) ← continuation rest;
  '(x2, r2) ← continuation r1;
  '(x3, _) ← continuation r2;
  let cp := ((((n - 240) * 64 + x1) * 64 + x2) * 64 + x3)%N in
  if ((65536 <=? cp) && (cp <=? 1114111))%N then Some cp else None.

(** The character that begins with the byte [c], [rest] following: its code
    point and the number of its bytes.  A byte that begins no character (no
    [str] holds one) stands alone, without a code point. *)
Definition first_char (c : ascii) (rest : string) : option N * nat :=
  let n := N_of_ascii c in
  let sized (len : nat) (cp : option N) :=
    match cp with
    | Some _ => (cp, len)
    | None => (None, 1%nat)
    end in
  if (n <? 128)%N then (Some n, 1%nat)
  else if (n <? 194)%N then (None, 1%nat)
  else if (n <? 224)%N then sized 2%nat (decode2 n rest)
  else if (n <? 240)%N then sized 3%nat (decode3 n rest)
  else if (n <? 245)%N then sized 4%nat (decode4 n rest)
  else (None, 1%nat).

(** The characters of a text, each with its bytes; [skip] bytes at the
    head belong to the character before. *)
Fixpoint chars_skip (skip : nat) (s : string) : list (option N * string) :=
  match s with
  | EmptyString => []
  | String c rest =>
      match skip with
      | S k => chars_skip k rest
      | O =>
          let '(cp, len) := first_char c rest in
          (cp, String.substring 0 len s) :: chars_skip (len - 1) rest
      end
  end.

Definition chars (s : string) : list (option N * string) := chars_skip 0 s.

(** [str.isspace] on one character: TAB, LF, VT, FF, CR, FS, GS, RS, US,
    the blank, and the blanks beyond ASCII (NEL, NBSP, U+1680, U+2000 to
    U+200A, U+2028, U+2029, U+202F, U+205F, U+3000). *)
Definition isspace (cp : option N) : bool :=
  match cp with
  | Some n =>
      ((9 <=? n) && (n <=? 13) || (28 <=? n) && (n <=? 32) ||
       (n =? 133) || (n =? 160) || (n =? 5760) ||
       (8192 <=? n) && (n <=? 8202) || (n =? 8232) || (n =? 8233) ||
       (n =? 8239) || (n =? 8287) || (n =? 12288))%N
  | None => false
  end.

Fixpoint lstrip (cs : list (option N * string)) : list (option N * string) :=
  match cs with
  | [] => []
  | c :: cs' => if isspace c.1 then lstrip cs' else cs
  end.

(** The text of a list of characters. *)
Definition join (cs : list (option N * string)) : string :=
  foldr (fun c s => c.2 +:+ s) "" cs.

(** [s.strip()] *)
Definition strip (s : string) : string :=
  join (reverse (lstrip (reverse (lstrip (chars s))))).

(** *** float arithmetic: sum, len, max *)

(** An integer as the nearest float ([len(lst)] in a true division). *)
Definition float_of_Z (z : Z) : float :=
  SF2Prim (binary_normalize prec emax z 0 false).

(** [sum(lst)]: left-to-right additions starting from [0].  (CPython 3.12
    and later compensate the rounding error of the additions; the two agree
    whenever the partial sums are exact.) *)
Definition sum (lst : list float) : float :=
  fold_left PrimFloat.add lst 0%float.

(** [max(lst)] on a non-empty list given as head and tail: the running
    maximum is replaced by an item that compares greater. *)
Definition max_from (x : float) (rest : list float) : float :=
  fold_left (fun m y => if PrimFloat.ltb m y then y else m) rest x.

(** [max(lst)]: [ValueError] on the empty list. *)
Definition max (lst : list float) : result float :=
  match lst with
  | [] => Raise ValueError
  | x :: rest => Ok (max_from x rest)
  end.

(** *** float(s) *)

(** digitpart ::= digit (["_"] digit)*; [digits_more] reads what follows
    the first digit and returns the accumulated value, the number of digits
    read and the unread rest. *)
Fixpoint digits_more (acc : Z) (cnt : nat) (s : string) : Z * nat * string :=
  match s with
  | String c s' =>
      match Ascii.is_nat c with
      | Some d => digits_more (10 * acc + Z.of_nat d) (S cnt) s'
      | None =>
          if Ascii.eqb c "_" then
            match s' with
            | String c' s'' =>
                match Ascii.is_nat c' with
                | Some d => digits_more (10 * acc + Z.of_nat d) (S cnt) s''
                | None => (acc, cnt, s)
                end
            | EmptyString => (acc, cnt, s)
            end
          else (acc, cnt, s)
      end
  | EmptyString => (acc, cnt, s)
  end.

Definition digitpart (acc : Z) (s : string) : option (Z * nat * string) :=
  match s with
  | String c s' =>
      match Ascii.is_nat c with
      | Some d => Some (digits_more (10 * acc + Z.of_nat d) 1 s')
      | None => None
      end
  | EmptyString => None
  end.

(** number ::= [digitpart] "." digitpart | digitpart ["."]; the result is
    the mantissa as an integer, the number of fraction digits and the rest. *)
Definition number (s : string) : option (Z * nat * string) :=
  match digitpart 0 s with
  | Some (m, _, rest) =>
      match rest with
      | String "." rest' =>
          match digitpart m rest' with
          | Some r => Some r
          | None => Some (m, 0%nat, rest')
          end
      | _ => Some (m, 0%nat, rest)
      end
  | None =>
      match s with
      | String "." rest' => digitpart 0 rest'
      | _ => None
      end
  end.

(** An optional sign: [true] for "-". *)
Definition sign (s : string) : bool * string :=
  match s with
  | String "-" s' => (true, s')
  | String "+" s' => (false, s')
  | _ => (false, s)
  end.

(** exponent ::= ("e" | "E") [sign] digitpart, read to the end of the
    string; no exponent is the exponent [0]. *)
Definition exponent (s : string) : option Z :=
  match s with
  | EmptyString => Some 0
  | String c s' =>
      if Ascii.eqb c "e" || Ascii.eqb c "E" then
        let '(neg, s'') := sign s' in
        match digitpart 0 s'' with
        | Some (e, _, EmptyString) => Some (if neg then - e else e)
        | _ => None
        end
      else None
  end.

Definition lower (c : ascii) : ascii :=
  let n := N_of_ascii c in
  if ((65 <=? n) && (n <=? 90))%N then ascii_of_N (n + 32) else c.

Fixpoint lowercase (s : string) : string :=
  match s with
  | EmptyString => EmptyString
  | String c s' => String (lower c) (lowercase s')
  end.

(** The float nearest to [m * 10 ^ e] (ties to even), signed. *)
Definition decimal_to_float (neg : bool) (m e : Z) : float :=
  if m =? 0 then (if neg then (-0)%float else 0%float)
  else
    let '(n, d) := if 0 <=? e then (m * 10 ^ e, 1) else (m, 10 ^ (- e)) in
    SF2Prim (SFdiv prec emax (S754_finite neg (Z.to_pos n) 0)
                             (S754_finite false (Z.to_pos d) 0)).

(** The code points, beyond ASCII, of the digit zero of each decimal
    script (Unicode 14.0, the tables of CPython 3.11); the digits one to nine
    follow their zero. *)
Definition decimal_zeros : list N :=
  [ 1632; 1776; 1984; 2406; 2534; 2662; 2790; 2918; 3046; 3174; 3302; 3430;
    3558; 3664; 3792; 3872; 4160; 4240; 6112; 6160; 6470; 6608; 6784; 6800;
    6992; 7088; 7232; 7248; 42528; 43216; 43264; 43472; 43504; 43600; 44016;
    65296; 66720; 68912; 69734; 69872; 69942; 70096; 70384; 70736; 70864;
    71248; 71360; 71472; 71904; 72016; 72784; 73040; 73120; 92768; 92864;
    93008; 120782; 120792; 120802; 120812; 120822; 123200; 123632; 125264;
    130032 ]%N.

(** The value of a decimal digit beyond ASCII. *)
Definition decimal (n : N) : option N :=
  (fun zero => (n - zero)%N) <$>
  List.find (fun zero => ((zero <=? n) && (n <? zero + 10))%N) decimal_zeros.

(** What [float] makes of one character before it reads the literal: an
    ASCII character stays, a blank beyond ASCII becomes the blank, a decimal
    digit beyond ASCII its ASCII digit; on any other character the
    conversion fails. *)
Definition ascii_of_char (cp : option N) : option ascii :=
  match cp with
  | Some n =>
      if (n <? 127)%N then Some (ascii_of_N n)
      else if isspace cp then Some " "%char
      else (fun d => ascii_of_N (48 + d)) <$> decimal n
  | None => None
  end.

Fixpoint ascii_text (cs : list (option N * string)) : option string :=
  match cs with
  | [] => Some EmptyString
  | c :: cs' =>
      a ← ascii_of_char c.1;
      rest ← ascii_text cs';
      Some (String a rest)
  end.

(** The blanks [float] drops around the literal: TAB, LF, VT, FF, CR and
    the blank (not FS, GS, RS, US, which [strip] drops). *)
Definition float_space (c : ascii) : bool :=
  let n := N_of_ascii c in
  ((9 <=? n) && (n <=? 13) || (n =? 32))%N.

Fixpoint drop_blanks (s : string) : string :=
  match s with
  | EmptyString => EmptyString
  | String c s' => if float_space c then drop_blanks s' else s
  end.

Fixpoint drop_blanks_end (s : string) : string :=
  match s with
  | EmptyString => EmptyString
  | String c s' =>
      match drop_blanks_end s' with
      | EmptyString => if float_space c then EmptyString else String c EmptyString
      | r => String c r
      end
  end.

(** The literal of an ASCII text: [[sign] (number [exponent] | "inf" |
    "infinity" | "nan")], letters in either case; anything else is
    [ValueError]. *)
Definition float_of_literal (s : string) : result float :=
  let '(neg, body) := sign s in
  let word := lowercase body in
  if String.eqb word "inf" || String.eqb word "infinity" then
    Ok (if neg then neg_infinity else infinity)
  else if String.eqb word "nan" then Ok nan
  else
    match number body with
    | Some (m, frac, rest) =>
        match exponent rest with
        | Some e => Ok (decimal_to_float neg m (e - Z.of_nat frac))
        | None => Raise ValueError
        end
    | None => Raise ValueError
    end.

(** [float(s)] for a [str]: the characters are brought to ASCII, the
    blanks around the literal are dropped and the literal is read. *)
Definition float_of_str (s : string) : result float :=
  match ascii_text (chars s) with
  | Some a => float_of_literal (drop_blanks_end (drop_blanks a))
  | None => Raise ValueError
  end.

(** [float(x)] for a CSV cell: [float(None)] is a [TypeError]. *)
Definition float_of_cell (x : option string) : result float :=
  match x with
  | None => Raise TypeError
  | Some s => float_of_str s
  end.

(** *** format(x, ".Nf") *)

Definition digits_of_Z (z : Z) : string :=
  NilZero.string_of_uint (N.to_uint (Z.to_N z)).

Fixpoint zeros (n : nat) : string :=
  match n with
  | O => EmptyString
  | S n' => String "0" (zeros n')
  end.

(** [n] in decimal, at least [w] digits. *)
Definition zero_padded (w : nat) (n : Z) : string :=
  let d := digits_of_Z n in
  zeros (w - String.length d) +:+ d.

(** [m * 2 ^ e * 10 ^ p] rounded to the nearest integer, ties to even. *)
Definition scaled_round (m e : Z) (p : nat) : Z :=
  let num := m * 10 ^ Z.of_nat p in
  if 0 <=? e then num * 2 ^ e
  else
    let den := 2 ^ (- e) in
    let q := num / den in
    let r := num mod den in
    match 2 * r ?= den with
    | Lt => q
    | Gt => q + 1
    | Eq => if Z.even q then q else q + 1
    end.

Definition fixed_point (neg : bool) (q : Z) (p : nat) : string :=
  let unit := 10 ^ Z.of_nat p in
  (if neg then "-" else "") +:+ digits_of_Z (q / unit) +:+
  match p with
  | O => ""
  | _ => "." +:+ zero_padded p (q mod unit)
  end.

(** [f"{x:.pf}"] *)
Definition format_f (p : nat) (x : float) : string :=
  match Prim2SF x with
  | S754_nan => "nan"
  | S754_infinity neg => if neg then "-inf" else "inf"
  | S754_zero neg => fixed_point neg 0 p
  | S754_finite neg m e => fixed_point neg (scaled_round (Zpos m) e p) p
  end.

End Py.

Import Py.

(** ** Data model *)

(** One row as [csv.DictReader] yields it: column name to cell, a cell
    being a [str], or [None] where the row is shorter than the header. *)
Abbreviation row_dict := (gmap string (option string)).

(** The per-phase dictionary: metric key to the list of values. *)
Abbreviation phase_data := (list (string * list float)).

(** The phase mapping: phase key (the row's [phase] cell) to its data, in
    order of first appearance. *)
Abbreviation phases_t := (list (option string * phase_data)).

(** A [defaultdict(list)] keyed by metric. *)
Abbreviation bucket := (gmap string (list float)).

(** [d[metric]] on a [defaultdict(list)]. *)
Definition bucket_get (d : bucket) (metric : string) : list float :=
  default [] (d !! metric).

(** A CSV file after the [csv] reader has split it into records of fields;
    the first record is the header. *)
Abbreviation table := (list (list string)).

(** ** csv.DictReader *)

(** [d = dict(zip(fieldnames, row))], then [d[key] = None] for the field
    names the row is too short for.  (For a row longer than the header the
    surplus is stored under the key [None], which no lookup below uses.) *)
Definition DictReader_row (fieldnames row : list string) : row_dict :=
  let d := fold_left (fun d kv => <[kv.1 := Some kv.2]> d) (zip fieldnames row) ∅ in
  fold_left (fun d key => <[key := None]> d) (drop (length row) fieldnames) d.

(** The rows of a file: the first record is the header, empty records are
    skipped. *)
Definition DictReader (t : table) : list row_dict :=
  match t with
  | [] => []
  | fieldnames :: records =>
      map (DictReader_row fieldnames) (filter (fun r => r <> []) records)
  end.

(** ** parse_csv, common to the two scripts *)

Module Parser.
Section parser.
(** The metric keys of the default factory, each with the CSV column its
    [append] statement reads, in the order of the statements. *)
Variable fields : list (string * string).

(** [lambda: {'power': [], 'cpu': [], ...}] *)
Definition default_factory : phase_data := map (fun f => (f.1, [])) fields.

(** [phases[phase]] on the [defaultdict]: a missing key is inserted. *)
Definition touch (phase : option string) (phases : phases_t) : phases_t :=
  match dict_get phase phases with
  | Some _ => phases
  | None => phases ++ [(phase, default_factory)]
  end.

(** [phases[phase][metric].append(float(row[column]))], evaluated in
    Python's order: the list first, then the argument, then the call.  The
    mapping is returned also when the statement raises. *)
Definition append_stmt (row : row_dict) (phase : option string)
    (phases : phases_t) (f : string * string) : result unit * phases_t :=
  let phases := touch phase phases in
  match dict_get phase phases ≫= dict_get f.1 with
  | None => (Raise (KeyError f.1), phases)
  | Some _ =>
      match row !! f.2 with
      | None => (Raise (KeyError f.2), phases)
      | Some c =>
          match float_of_cell c with
          | Raise e => (Raise e, phases)
          | Ok v => (Ok (), update (update (fun l => l ++ [v]) f.1) phase phases)
          end
      end
  end.

(** The body of the [try]: the statements in order, up to the first
    that raises. *)
Fixpoint try_body (row : row_dict) (phase : option string)
    (stmts : list (string * string)) (phases : phases_t)
  : result unit * phases_t :=
  match stmts with
  | [] => (Ok (), phases)
  | f :: rest =>
      match append_stmt row phase phases f with
      | (Ok _, phases') => try_body row phase rest phases'
      | (Raise e, phases') => (Raise e, phases')
      end
  end.

(** One iteration of [for row in reader]. *)
Definition loop_body (phases : phases_t) (row : row_dict) : result phases_t :=
  match row !! "phase" with
  | None => Raise (KeyError "phase")
  | Some phase =>
      match try_body row phase fields phases with
      | (Ok _, phases') => Ok phases'
      | (Raise (KeyError _), phases') => Ok phases'
      | (Raise ValueError, phases') => Ok phases'
      | (Raise e, _) => Raise e
      end
  end.

Definition parse_rows (rows : list row_dict) : result phases_t :=
  for_each loop_body rows [].

Definition parse_csv (t : table) : result phases_t :=
  parse_rows (DictReader t).
End parser.
End Parser.

(** [sub in k] for a phase key: a [TypeError] when the key is [None]. *)
Definition key_contains (sub : string) (k : option string) : result bool :=
  match k with
  | None => Raise TypeError
  | Some name => Ok (str_in sub name)
  end.

(** [for metric, values in data.items(): target[metric].extend(values)] *)
Definition extend_all (target : bucket) (data : phase_data) : bucket :=
  fold_left (fun tgt mv => <[mv.1 := bucket_get tgt mv.1 ++ mv.2]> tgt) data target.

Definition nl : string := String "010" "".

(** The text made of the given lines, each ended by a newline. *)
Fixpoint text (ls : list string) : string :=
  match ls with
  | [] => ""
  | l :: ls' => l +:+ nl +:+ text ls'
  end.

(** ** generate_report.py *)

Module Report.

Definition fields : list (string * string) :=
  [ ("power", "power_w"); ("cpu", "cpu_pct"); ("temp", "cpu_temp_c");
    ("mem", "mem_pct"); ("load", "load_1m");
    ("disk_read", "disk_read_mbs"); ("disk_write", "disk_write_mbs");
    ("net_rx", "net_rx_kbs"); ("net_tx", "net_tx_kbs") ].

Definition parse_csv : table -> result phases_t := Parser.parse_csv fields.

(** [sum(lst) / len(lst) if lst else 0] *)
Definition avg (lst : list float) : float :=
  match lst with
  | [] => 0%float
  | _ => (sum lst / float_of_Z (Z.of_nat (length lst)))%float
  end.

(** [max(lst) if lst else 0] *)
Definition peak (lst : list float) : float :=
  match lst with
  | [] => 0%float
  | x :: rest => max_from x rest
  end.

(** [{k: v for k, v in phases.items() if sub in k}] *)
Fixpoint select (sub : string) (phases : phases_t) : result phases_t :=
  match phases with
  | [] => Ok []
  | (k, v) :: rest =>
      match key_contains sub k with
      | Ok b =>
          match select sub rest with
          | Ok sel => Ok (if b then (k, v) :: sel else sel)
          | Raise e => Raise e
          end
      | Raise e => Raise e
      end
  end.

(** The two loops that fill [all_battery] and [all_ac]. *)
Definition accumulate (sel : phases_t) : bucket :=
  fold_left (fun all kv => extend_all all kv.2) sel ∅.

Definition phase_names : list (string * string) :=
  [ ("light_bat", "Light (Battery)");
    ("medium_bat", "Medium-Heavy (Battery)");
    ("heavy_bat", "Heavy (Battery)");
    ("ultra_bat", "Ultra-Heavy (Battery)");
    ("light_ac", "Light (AC)");
    ("medium_ac", "Medium-Heavy (AC)");
    ("heavy_ac", "Heavy (AC)");
    ("ultra_ac", "Ultra-Heavy (AC)") ].

Definition battery_keys : list string :=
  ["light_bat"; "medium_bat"; "heavy_bat"; "ultra_bat"].

Definition ac_keys : list string :=
  ["light_ac"; "medium_ac"; "heavy_ac"; "ultra_ac"].

(** The opening of the report, up to the header of the battery table. *)
Definition report_head (system_info : string) : string :=
  text [ "# Desktop Environment Benchmark Report"; "";
         "## System Information"; "";
         "```" ]
  +:+ strip system_info +:+
  text [ ""; "```"; ""; "---"; "";
         "## Summary by Phase"; "";
         "### Battery Phases";
         "| Phase | Avg Power (W) | Peak Power (W) | Avg CPU (%) | Avg Temp (°C) | Avg Mem (%) |";
         "|-------|--------------|----------------|-------------|---------------|-------------|" ].

Definition ac_head : string :=
  text [ "";
         "### AC Phases";
         "| Phase | Avg Power (W) | Peak Power (W) | Avg CPU (%) | Avg Temp (°C) | Avg Mem (%) |";
         "|-------|--------------|----------------|-------------|---------------|-------------|" ].

(** One line of a phase table. *)
Definition table_row (phase_key : string) (data : phase_data) : result string :=
  power ← getitem id "power" data;
  cpu ← getitem id "cpu" data;
  temp ← getitem id "temp" data;
  mem ← getitem id "mem" data;
  Ok ("| " +:+ default phase_key (dict_get phase_key phase_names) +:+
      " | " +:+ format_f 2 (avg power) +:+
      " | " +:+ format_f 2 (peak power) +:+
      " | " +:+ format_f 1 (avg cpu) +:+
      " | " +:+ format_f 1 (avg temp) +:+
      " | " +:+ format_f 1 (avg mem) +:+ " |" +:+ nl).

(** [for phase_key in keys: if phase_key in sel: report += row] *)
Fixpoint table_rows (keys : list string) (sel : phases_t) : result string :=
  match keys with
  | [] => Ok ""
  | phase_key :: keys' =>
      match dict_get (Some phase_key) sel with
      | Some data =>
          row ← table_row phase_key data;
          rows ← table_rows keys' sel;
          Ok (row +:+ rows)
      | None => table_rows keys' sel
      end
  end.

Definition placeholder_row : string :=
  "| *(Skipped - validation mode)* | - | - | - | - | - |" +:+ nl.

(** [f"{stat(all_ac[metric]):.pf}" if all_ac[metric] else 'N/A'] *)
Definition ac_cell (stat : list float -> float) (p : nat) (all_ac : bucket)
    (metric : string) : string :=
  match bucket_get all_ac metric with
  | [] => "N/A"
  | values => format_f p (stat values)
  end.

(** [f"{stat(all_battery[metric]):.pf}"] *)
Definition battery_cell (stat : list float -> float) (p : nat) (all_battery : bucket)
    (metric : string) : string :=
  format_f p (stat (bucket_get all_battery metric)).

(** The two summary tables and the pointer to the raw data. *)
Definition summary (all_battery all_ac : bucket) : string :=
  text [ ""; "---"; "";
         "## Overall Summary"; "";
         "| Metric | Battery | AC |";
         "|--------|---------|-----|";
         "| Avg Power (W) | " +:+ battery_cell avg 2 all_battery "power" +:+ " | " +:+ ac_cell avg 2 all_ac "power" +:+ " |";
         "| Peak Power (W) | " +:+ battery_cell peak 2 all_battery "power" +:+ " | " +:+ ac_cell peak 2 all_ac "power" +:+ " |";
         "| Avg CPU (%) | " +:+ battery_cell avg 1 all_battery "cpu" +:+ " | " +:+ ac_cell avg 1 all_ac "cpu" +:+ " |";
         "| Avg Temp (°C) | " +:+ battery_cell avg 1 all_battery "temp" +:+ " | " +:+ ac_cell avg 1 all_ac "temp" +:+ " |";
         "| Avg Memory (%) | " +:+ battery_cell avg 1 all_battery "mem" +:+ " | " +:+ ac_cell avg 1 all_ac "mem" +:+ " |";
         "| Avg Load (1m) | " +:+ battery_cell avg 2 all_battery "load" +:+ " | " +:+ ac_cell avg 2 all_ac "load" +:+ " |";
         ""; "---"; "";
         "## I/O Summary"; "";
         "| Metric | Battery | AC |";
         "|--------|---------|-----|";
         "| Avg Disk Read (MB/s) | " +:+ battery_cell avg 2 all_battery "disk_read" +:+ " | " +:+ ac_cell avg 2 all_ac "disk_read" +:+ " |";
         "| Avg Disk Write (MB/s) | " +:+ battery_cell avg 2 all_battery "disk_write" +:+ " | " +:+ ac_cell avg 2 all_ac "disk_write" +:+ " |";
         "| Avg Net RX (KB/s) | " +:+ battery_cell avg 2 all_battery "net_rx" +:+ " | " +:+ ac_cell avg 2 all_ac "net_rx" +:+ " |";
         "| Avg Net TX (KB/s) | " +:+ battery_cell avg 2 all_battery "net_tx" +:+ " | " +:+ ac_cell avg 2 all_ac "net_tx" +:+ " |";
         ""; "---"; "";
         "## Raw Data"; "";
         "Full metrics available in: `raw_metrics.csv`" ].

Definition graphs : string :=
  text [ ""; "---"; "";
         "## Comparison Graphs"; "";
         "### Dashboard Overview";
         "![Dashboard](dashboard.png)"; "";
         "### Individual Metrics";
         "| Power | CPU | Memory |";
         "|-------|-----|--------|";
         "| ![Power](power_comparison.png) | ![CPU](cpu_comparison.png) | ![Memory](mem_comparison.png) |" ].

(** [generate_report] from the parsed phases on: the text written to the
    output path.  [system_info] is the content of the system information
    file ([None] when there is no such file) and [dashboard_exists] tells
    whether [dashboard.png] stands beside the output. *)
Definition render (phases : phases_t) (system_info : option string)
    (dashboard_exists : bool) : result string :=
  let system_info := default "N/A" system_info in
  battery_phases ← select "_bat" phases;
  ac_phases ← select "_ac" phases;
  let all_battery := accumulate battery_phases in
  let all_ac := accumulate ac_phases in
  battery_rows ← table_rows battery_keys battery_phases;
  ac_rows ← table_rows ac_keys ac_phases;
  Ok (report_head system_info +:+ battery_rows +:+
      ac_head +:+ ac_rows +:+
      (match ac_phases with [] => placeholder_row | _ => "" end) +:+
      summary all_battery all_ac +:+
      (if dashboard_exists then graphs else "")).

Definition generate_report (t : table) (system_info : option string)
    (dashboard_exists : bool) : result string :=
  phases ← parse_csv t;
  render phases system_info dashboard_exists.

End Report.

(** ** compare_results.py *)

Module Compare.

Definition fields : list (string * string) :=
  [ ("power", "power_w"); ("cpu", "cpu_pct"); ("temp", "cpu_temp_c");
    ("mem", "mem_pct"); ("load", "load_1m");
    ("disk_read", "disk_read_mbs"); ("disk_write", "disk_write_mbs");
    ("net_rx", "net_rx_kbs"); ("net_tx", "net_tx_kbs");
    ("cpu_freq", "cpu_freq_mhz"); ("context_switches", "context_switches") ].

Definition parse_csv : table -> result phases_t := Parser.parse_csv fields.

(** [sum(lst) / len(lst) if lst else 0] *)
Definition avg (lst : list float) : float :=
  match lst with
  | [] => 0%float
  | _ => (sum lst / float_of_Z (Z.of_nat (length lst)))%float
  end.

Record run_info : Type := { de : string; run_type : string }.

(** [line.split(':')[1].strip()] *)
Definition second_field (line : string) : result string :=
  match split ":" line with
  | _ :: v :: _ => Ok (strip v)
  | _ => Raise IndexError
  end.

(** The body of [for line in content.split('\n')]. *)
Definition read_line (info : run_info) (line : string) : result run_info :=
  info ← (if startswith "Desktop:" line
          then v ← second_field line; Ok {| de := v; run_type := run_type info |}
          else Ok info);
  if startswith "Run Type:" line
  then v ← second_field line; Ok {| de := de info; run_type := v |}
  else Ok info.

(** [get_run_info], from the content of [system_info.txt] ([None] when the
    file does not exist). *)
Definition get_run_info (system_info : option string) : result run_info :=
  let info := {| de := "Unknown"; run_type := "unknown" |} in
  match system_info with
  | None => Ok info
  | Some content => for_each read_line (split "010" content) info
  end.

(** The body of [for phase_name, data in phases.items()]. *)
Definition aggregate_step (targets : bucket * bucket)
    (item : option string * phase_data) : result (bucket * bucket) :=
  is_bat ← key_contains "_bat" item.1;
  Ok (if is_bat : bool
      then (extend_all targets.1 item.2, targets.2)
      else (targets.1, extend_all targets.2 item.2)).

Definition aggregate_by_power_mode (phases : phases_t) : result (bucket * bucket) :=
  for_each aggregate_step phases (∅, ∅).

(** A result directory: its [raw_metrics.csv] and [system_info.txt], each
    [None] when the file does not exist. *)
Record results_dir : Type :=
  { raw_metrics : option table; system_info : option string }.

(** What a drawn bar chart is made of; [ylim_top] is the upper limit given
    to [set_ylim], [None] where the code leaves the axis to the library. *)
Record chart : Type :=
  { metric_key : string; ylabel : string; title : string;
    labels : list string; values : list float; ylim_top : option float }.

(** The body of [for rdir in results_dirs]. *)
Definition collect (all_data : list (string * gmap string float)) (rdir : results_dir)
  : result (list (string * gmap string float)) :=
  match raw_metrics rdir with
  | None => Ok all_data
  | Some csv =>
      info ← get_run_info (system_info rdir);
      phases ← parse_csv csv;
      targets ← aggregate_by_power_mode phases;
      let all_data :=
        if bool_decide (targets.1 = ∅) then all_data
        else setitem (de info +:+ "_Battery") (avg <$> targets.1) all_data in
      let all_data :=
        if bool_decide (targets.2 = ∅) then all_data
        else setitem (de info +:+ "_AC") (avg <$> targets.2) all_data in
      Ok all_data
  end.

Definition metrics_config : list (string * string * string) :=
  [ ("power", "Average Power Draw (W)", "Power Consumption");
    ("cpu", "Average CPU Usage (%)", "CPU Usage");
    ("temp", "Average CPU Temperature (°C)", "Temperature");
    ("mem", "Average Memory Usage (%)", "Memory Usage");
    ("load", "Average Load (1m)", "System Load");
    ("disk_read", "Average Disk Read (MB/s)", "Disk Read");
    ("disk_write", "Average Disk Write (MB/s)", "Disk Write") ].

(** [[all_data[label].get(metric_key, 0) for label in labels]] *)
Definition plotted (all_data : list (string * gmap string float))
    (labels : list string) (metric_key : string) : result (list float) :=
  comprehension
    (fun label => d ← getitem id label all_data; Ok (default 0%float (d !! metric_key)))
    labels.

(** [max(values) * 1.2 if values else 1] *)
Definition ylim (values : list float) : result float :=
  match values with
  | [] => Ok 1%float
  | _ => m ← Py.max values; Ok (m * 0x1.3333333333333p+0)%float
  end.

(** One chart of the loop over [metrics_config]. *)
Definition comparison_chart (all_data : list (string * gmap string float))
    (labels : list string) (cfg : string * string * string) : result chart :=
  let '(metric_key, ylabel, title) := cfg in
  values ← plotted all_data labels metric_key;
  top ← ylim values;
  Ok {| metric_key := metric_key; ylabel := ylabel;
        title := title +:+ " Comparison";
        labels := labels; values := values; ylim_top := Some top |}.

(** One sub-chart of the dashboard: no [set_ylim] there. *)
Definition dashboard_chart (all_data : list (string * gmap string float))
    (labels : list string) (cfg : string * string * string) : result chart :=
  let '(metric_key, ylabel, title) := cfg in
  values ← plotted all_data labels metric_key;
  Ok {| metric_key := metric_key; ylabel := ylabel; title := title;
        labels := labels; values := values; ylim_top := None |}.

(** [create_comparison_charts] with matplotlib present: the per-metric
    charts and the sub-charts of the dashboard, or [None] when there is no
    data to compare. *)
Definition create_comparison_charts (results_dirs : list results_dir)
  : result (option (list chart * list chart)) :=
  all_data ← for_each collect results_dirs [];
  match all_data with
  | [] => Ok None
  | _ =>
      let labels := map fst all_data in
      charts ← comprehension (comparison_chart all_data labels) metrics_config;
      dashboard ← comprehension (dashboard_chart all_data labels) (take 6 metrics_config);
      Ok (Some (charts, dashboard))
  end.

End Compare.

(** ** Vocabulary of the statements *)

(** A phase mapping all of whose keys are names. *)
Definition named (l : list (string * phase_data)) : phases_t :=
  map (fun kv => (Some kv.1, kv.2)) l.

(** The values a phase holds under a metric key. *)
Definition values_of (metric : string) (data : phase_data) : list float :=
  concat (map snd (filter (fun kv => kv.1 = metric) data)).

(** Every phase of the mapping has exactly the keys of the default factory. *)
Definition keys_ok (fields : list (string * string)) (phases : phases_t) : Prop :=
  forall k d, dict_get k phases = Some d -> map fst d = map fst fields.

(** [all_battery] and [all_ac] of the report, as [report_bucket "_bat"] and
    [report_bucket "_ac"]. *)
Definition report_bucket (sub : string) (phases : phases_t) : result bucket :=
  sel ← Report.select sub phases; Ok (Report.accumulate sel).

(** The two buckets [aggregate_by_power_mode] returns. *)
Definition compare_battery (phases : phases_t) : result bucket :=
  fst <$> Compare.aggregate_by_power_mode phases.

Definition compare_ac (phases : phases_t) : result bucket :=
  snd <$> Compare.aggregate_by_power_mode phases.

(** A bucket after the data of the given phases went into it, in order. *)
Definition pour (b : bucket) (ds : list phase_data) : bucket :=
  fold_left extend_all ds b.

(** The cell of [row] in the column of [f] is text that converts to [v]. *)
Definition converts (row : row_dict) (f : string * string) (v : float) : Prop :=
  exists s, row !! f.2 = Some (Some s) /\ float_of_str s = Ok v.

(** The mapping after the values [fvs] of one row went, statement by
    statement, into the phase [phase]. *)
Definition admitted (fields : list (string * string)) (phase : option string)
    (fvs : list ((string * string) * float)) (phases : phases_t) : phases_t :=
  fold_left
    (fun ps fv => update (update (fun l => l ++ [fv.2]) fv.1.1) phase
                    (Parser.touch fields phase ps))
    fvs phases.

(** The data of the phases of a mapping whose name satisfies [P]. *)
Definition chosen (P : string -> bool) (l : list (string * phase_data)) : list phase_data :=
  map snd (filter (fun kv => P kv.1) l).

(** The text after the first colon of a line (empty when there is none):
    the value of a [Desktop:] or [Run Type:] line as the specification
    words it. *)
Fixpoint after_first_colon (line : string) : string :=
  match line with
  | EmptyString => EmptyString
  | String c s => if Ascii.eqb c ":" then s else after_first_colon s
  end.

(** The text up to the next colon, or all of it when there is none. *)
Fixpoint before_colon (s : string) : string :=
  match s with
  | EmptyString => EmptyString
  | String c s' => if Ascii.eqb c ":" then EmptyString else String c (before_colon s')
  end.

(** [agg] adds the values of the phase [name], in mapping order, to the
    bucket it computes. *)
Definition feeds (agg : phases_t -> result bucket) (name : string) (data : phase_data)
  : Prop :=
  forall pre post metric, exists b b1 b2,
    agg (named (pre ++ (name, data) :: post)) = Ok b /\
    agg (named pre) = Ok b1 /\ agg (named post) = Ok b2 /\
    bucket_get b metric
    = bucket_get b1 metric ++ values_of metric data ++ bucket_get b2 metric.

(** The bucket [agg] computes is the one it computes without the phase
    [name]. *)
Definition bypasses (agg : phases_t -> result bucket) (name : string) (data : phase_data)
  : Prop :=
  forall pre post,
    returns (agg (named (pre ++ post))) /\
    agg (named (pre ++ (name, data) :: post)) = agg (named (pre ++ post)).

(** [s] occurs in [doc]. *)
Definition infix (s doc : string) : Prop := exists a b, doc = a +:+ s +:+ b.

(** The parts occur in [doc] one after the other. *)
Fixpoint in_order (parts : list string) (doc : string) : Prop :=
  match parts with
  | [] => True
  | p :: ps => exists a b, doc = a +:+ p +:+ b /\ in_order ps b
  end.

(** A phase as the data model has it: one sequence per metric. *)
Record Phase : Type :=
  { power_values : list float; cpu_values : list float; temp_values : list float;
    mem_values : list float; load_values : list float;
    disk_read_values : list float; disk_write_values : list float;
    net_rx_values : list float; net_tx_values : list float }.

(** The dictionary the parser holds for such a phase. *)
Definition as_data (ph : Phase) : phase_data :=
  [ ("power", power_values ph); ("cpu", cpu_values ph); ("temp", temp_values ph);
    ("mem", mem_values ph); ("load", load_values ph);
    ("disk_read", disk_read_values ph); ("disk_write", disk_write_values ph);
    ("net_rx", net_rx_values ph); ("net_tx", net_tx_values ph) ].

(** A phase mapping of the data model: names to phases. *)
Definition typed (l : list (string * Phase)) : phases_t :=
  named (map (fun kv => (kv.1, as_data kv.2)) l).

(** The headings of a report, in the order of the document. *)
Definition report_sections : list string :=
  [ "# Desktop Environment Benchmark Report"; "## System Information";
    "## Summary by Phase"; "### Battery Phases"; "### AC Phases";
    "## Overall Summary"; "## I/O Summary"; "## Raw Data" ].

(** The lines of the two summary tables: label, statistic, digits and
    metric key. *)
Definition summary_lines : list (string * (list float -> float) * nat * string) :=
  [ ("Avg Power (W)", Report.avg, 2%nat, "power");
    ("Peak Power (W)", Report.peak, 2%nat, "power");
    ("Avg CPU (%)", Report.avg, 1%nat, "cpu");
    ("Avg Temp (°C)", Report.avg, 1%nat, "temp");
    ("Avg Memory (%)", Report.avg, 1%nat, "mem");
    ("Avg Load (1m)", Report.avg, 2%nat, "load");
    ("Avg Disk Read (MB/s)", Report.avg, 2%nat, "disk_read");
    ("Avg Disk Write (MB/s)", Report.avg, 2%nat, "disk_write");
    ("Avg Net RX (KB/s)", Report.avg, 2%nat, "net_rx");
    ("Avg Net TX (KB/s)", Report.avg, 2%nat, "net_tx") ].

(** ** Example inputs *)

Definition one_value : phase_data := [("power", [1%float])].

(** The header of the metrics file of a report run. *)
Definition header : list string :=
  [ "phase"; "power_w"; "cpu_pct"; "cpu_temp_c"; "mem_pct"; "load_1m";
    "disk_read_mbs"; "disk_write_mbs"; "net_rx_kbs"; "net_tx_kbs" ].

(** A run on mains only. *)
Definition ac_only_table : table :=
  [ header; ["light_ac"; "12"; "50"; "60"; "30"; "1"; "2"; "3"; "4"; "5"] ].

Definition row_power_10 : list string :=
  ["light_bat"; "10"; "50"; "60"; "30"; "1"; "2"; "3"; "4"; "5"].

Definition row_power_20 : list string :=
  ["light_bat"; "20"; "50"; "60"; "30"; "1"; "2"; "3"; "4"; "5"].

(** [cpu_pct] is not a number. *)
Definition row_bad_cpu : list string :=
  ["light_bat"; "10"; "abc"; "50"; "30"; "1"; "2"; "3"; "4"; "5"].

(** [power_w] is not a number. *)
Definition row_bad_power : list string :=
  ["idle_bat"; "n/a"; "50"; "60"; "30"; "1"; "2"; "3"; "4"; "5"].

(** A run on battery all of whose samples are zero. *)
Definition zero_run : Compare.results_dir :=
  {| Compare.raw_metrics :=
       Some [ header ++ ["cpu_freq_mhz"; "context_switches"];
              ["light_bat"; "0"; "0"; "0"; "0"; "0"; "0"; "0"; "0"; "0"; "0"; "0"] ];
     Compare.system_info := Some "Desktop: KDE" |}.

Definition no_values : phase_data :=
  [ ("power", []); ("cpu", []); ("temp", []); ("mem", []); ("load", []);
    ("disk_read", []); ("disk_write", []); ("net_rx", []); ("net_tx", []) ].

(** ** Vocabulary of the further properties *)

(** The sequence a mapping holds for a phase and a metric key, empty when
    it holds none. *)
Definition sequence (phases : phases_t) (phase : option string) (metric : string)
  : list float :=
  default [] (dict_get phase phases ≫= dict_get metric).

(** The number in the cell of [row] under [column], when the cell is there
    and converts. *)
Definition cell_value (row : row_dict) (column : string) : option float :=
  match row !! column with
  | Some c => match float_of_cell c with Ok v => Some v | Raise _ => None end
  | None => None
  end.

(** Every metric cell of the row converts. *)
Definition all_convert (fields : list (string * string)) (row : row_dict) : bool :=
  forallb (fun f => bool_decide (is_Some (cell_value row f.2))) fields.

(** The cell of the first metric is absent, or text that is no number. *)
Definition first_fails (fields : list (string * string)) (row : row_dict) : Prop :=
  match fields with
  | [] => False
  | f :: _ =>
      row !! f.2 = None \/
      exists s, row !! f.2 = Some (Some s) /\ float_of_str s = Raise ValueError
  end.

(** The numbers under [column] of the rows of phase [phase] all of whose
    metric cells convert, in file order. *)
Definition column_of (fields : list (string * string)) (rows : list row_dict)
    (phase : option string) (column : string) : list float :=
  omap (fun row =>
          if all_convert fields row && bool_decide (row !! "phase" = Some phase)
          then cell_value row column else None)
       rows.

(** The keys of a list in order of first appearance. *)
Definition first_seen {K : Type} `{EqDecision K} (ks : list K) : list K :=
  fold_left (fun seen k => if decide (k ∈ seen) then seen else seen ++ [k]) ks [].


(** ** Vocabulary of the report's tables *)

(** The two heading lines of a phase table. *)
Definition table_heading : list string :=
  [ "| Phase | Avg Power (W) | Peak Power (W) | Avg CPU (%) | Avg Temp (°C) | Avg Mem (%) |";
    "|-------|--------------|----------------|-------------|---------------|-------------|" ].

(** The canonical phases of the two tables, in table order, each with the
    name it is shown under. *)
Definition canonical_battery : list (string * string) :=
  [ ("light_bat", "Light (Battery)"); ("medium_bat", "Medium-Heavy (Battery)");
    ("heavy_bat", "Heavy (Battery)"); ("ultra_bat", "Ultra-Heavy (Battery)") ].

Definition canonical_ac : list (string * string) :=
  [ ("light_ac", "Light (AC)"); ("medium_ac", "Medium-Heavy (AC)");
    ("heavy_ac", "Heavy (AC)"); ("ultra_ac", "Ultra-Heavy (AC)") ].

(** The table line of the phase [key], shown as [shown]: mean and peak
    power with two decimals, mean CPU, temperature and memory with one. *)
Definition phase_line (phases : phases_t) (key shown : string) : string :=
  "| " +:+ shown +:+
  " | " +:+ format_f 2 (Report.avg (sequence phases (Some key) "power")) +:+
  " | " +:+ format_f 2 (Report.peak (sequence phases (Some key) "power")) +:+
  " | " +:+ format_f 1 (Report.avg (sequence phases (Some key) "cpu")) +:+
  " | " +:+ format_f 1 (Report.avg (sequence phases (Some key) "temp")) +:+
  " | " +:+ format_f 1 (Report.avg (sequence phases (Some key) "mem")) +:+
  " |" +:+ nl.

(** One line for each of the given phases that the mapping holds, in the
    order given. *)
Fixpoint phase_lines (phases : phases_t) (canon : list (string * string)) : string :=
  match canon with
  | [] => ""
  | (key, shown) :: rest =>
      match dict_get (Some key) phases with
      | Some _ => phase_line phases key shown +:+ phase_lines phases rest
      | None => phase_lines phases rest
      end
  end.

(** The values of a metric over the phases whose name contains [sub], in
    mapping order: what the summary cell of that side is computed from. *)
Definition bucket_values (sub : string) (l : list (string * Phase)) (metric : string)
  : list float :=
  concat (map (fun kv => values_of metric (as_data kv.2))
              (filter (fun kv => str_in sub kv.1) l)).

(** The row that stands for an AC table without phases. *)
Definition skipped_row : string :=
  "| *(Skipped - validation mode)* | - | - | - | - | - |" +:+ nl.

(** No phase name contains [_ac]. *)
Definition no_ac_phase (l : list (string * Phase)) : bool :=
  forallb (fun kv => negb (str_in "_ac" kv.1)) l.

(** A [light_bat] row whose [power_w] is 30 and whose [cpu_pct] is not a
    number. *)
Definition row_power_30_bad_cpu : list string :=
  ["light_bat"; "30"; "abc"; "60"; "30"; "1"; "2"; "3"; "4"; "5"].

(** A metrics file whose [phase] column comes last, with a record that
    stops one cell short of it. *)
Definition phase_last_table : table :=
  [ [ "power_w"; "cpu_pct"; "cpu_temp_c"; "mem_pct"; "load_1m";
      "disk_read_mbs"; "disk_write_mbs"; "net_rx_kbs"; "net_tx_kbs"; "phase" ];
    [ "10"; "50"; "60"; "30"; "1"; "2"; "3"; "4"; "5" ] ].

(** ** find_latest_results *)

(** An entry of the base directory as [iterdir] yields it: its path,
    whether it is a directory, whether [raw_metrics.csv] stands in it, and
    the modification time [stat().st_mtime]. *)
Record dir_entry : Type :=
  { entry_path : string; is_dir : bool; has_metrics : bool; st_mtime : float }.

(** [x] put into a list that is sorted newest first, before the first entry
    that is not newer than [x]. *)
Fixpoint insert_newest_first (x : dir_entry) (sorted : list dir_entry) : list dir_entry :=
  match sorted with
  | [] => [x]
  | y :: rest =>
      if PrimFloat.ltb (st_mtime x) (st_mtime y)
      then y :: insert_newest_first x rest
      else x :: y :: rest
  end.

(** [dirs.sort(key=lambda x: x.stat().st_mtime, reverse=True)]: a stable
    sort, entries of equal time keeping their order; on keys that are totally
    ordered, as file times are, every stable sort returns the same list. *)
Definition sort_newest_first (dirs : list dir_entry) : list dir_entry :=
  foldr insert_newest_first [] dirs.

(** [l[:count]], a negative [count] counting from the end. *)
Definition slice_to {A : Type} (count : Z) (l : list A) : list A :=
  if 0 <=? count then take (Z.to_nat count) l
  else take (length l - Z.to_nat (- count)) l.

(** The entries [find_latest_results] keeps, as entries. *)
Definition latest_dirs (entries : list dir_entry) (count : Z) : list dir_entry :=
  slice_to count
    (sort_newest_first (filter (fun d => is_dir d && has_metrics d) entries)).

(** [find_latest_results(base_dir, count)]; [base] is the listing of the
    base directory, [None] when the path does not exist. *)
Definition find_latest_results (base : option (list dir_entry)) (count : Z) : list string :=
  match base with
  | None => []
  | Some entries => map entry_path (latest_dirs entries count)
  end.

(** No entry is followed by a newer one. *)
Definition newest_first (l : list dir_entry) : Prop :=
  forall i a b, l !! i = Some a -> l !! S i = Some b ->
                PrimFloat.ltb (st_mtime a) (st_mtime b) = false.

(** A base directory with two result directories, a plain file and a
    directory without metrics. *)
Definition example_listing : list dir_entry :=
  [ {| entry_path := "results/kde"; is_dir := true; has_metrics := true;
       st_mtime := 1%float |};
    {| entry_path := "results/notes.txt"; is_dir := false; has_metrics := false;
       st_mtime := 4%float |};
    {| entry_path := "results/gnome"; is_dir := true; has_metrics := true;
       st_mtime := 3%float |};
    {| entry_path := "results/comparison"; is_dir := true; has_metrics := false;
       st_mtime := 5%float |} ].

(** * The prime-search load: [benchmark_resources/cpu_prime.py] *)

Module Prime.

(** The exceptions of this script's arithmetic. *)
Inductive raised : Type :=
| OverflowError
| ValueError.

(** What a call ends in. *)
Inductive outcome (A : Type) : Type :=
| Returns (a : A)
| Raises (e : raised).
Arguments Returns {A} a.
Arguments Raises {A} e.

(** [range(start, stop)] as the list it runs through. *)
Fixpoint range_from (start : Z) (len : nat) : list Z :=
  match len with
  | O => []
  | S k => start :: range_from (start + 1) k
  end.

Definition range (start stop : Z) : list Z :=
  range_from start (Z.to_nat (stop - start)).

(** The conversion of the int [n] that [n ** 0.5] starts with: the nearest
    float, ties to even; [OverflowError] beyond the largest float. *)
Definition float_of_int (n : Z) : outcome float :=
  let x := float_of_Z n in
  if PrimFloat.is_infinity x then Raises OverflowError else Returns x.

(** [int(x)]: the float cut off towards zero; [OverflowError] on an
    infinity and [ValueError] on a NaN. *)
Definition int_of_float (x : float) : outcome Z :=
  match Prim2SF x with
  | S754_zero _ => Returns 0
  | S754_infinity _ => Raises OverflowError
  | S754_nan => Raises ValueError
  | S754_finite s m e =>
      let a := if 0 <=? e then Z.pos m * 2 ^ e else Z.pos m / 2 ^ (- e) in
      Returns (if s then - a else a)
  end.

(** The loop of [is_prime]: the first candidate that divides [n] ends it
    with [False]; running out of candidates gives [True]. *)
Fixpoint trial (n : Z) (candidates : list Z) : bool :=
  match candidates with
  | [] => true
  | i :: rest => if n mod i =? 0 then false else trial n rest
  end.

Section is_prime.
(** [x ** 0.5] on a float: CPython hands it to the C library's [pow], whose
    last bit the language does not fix, so it is left open here. *)
Variable pow_half : float -> float.

(** [int(n ** 0.5)]. *)
Definition int_root (n : Z) : outcome Z :=
  match float_of_int n with
  | Returns x => int_of_float (pow_half x)
  | Raises e => Raises e
  end.

(** [is_prime(n)]. *)
Definition is_prime (n : Z) : outcome bool :=
  if n <? 2 then Returns false
  else
    match int_root n with
    | Returns r => Returns (trial n (range 2 (r + 1)))
    | Raises e => Raises e
    end.

(** [[n for n in ns if is_prime(n)]]. *)
Fixpoint keep_primes (ns : list Z) : outcome (list Z) :=
  match ns with
  | [] => Returns []
  | n :: rest =>
      match is_prime n with
      | Returns b =>
          match keep_primes rest with
          | Returns ps => Returns (if b then n :: ps else ps)
          | Raises e => Raises e
          end
      | Raises e => Raises e
      end
  end.

(** [find_primes(start, end)]. *)
Definition find_primes (start stop : Z) : outcome (list Z) :=
  keep_primes (range start stop).

(** [int(n ** 0.5)] returns a number from the integer square root of [n]
    up to, and not including, [n]. *)
Definition root_in_range (n : Z) : bool :=
  match int_root n with
  | Returns r => (Z.sqrt n <=? r) && (r <? n)
  | Raises _ => false
  end.
End is_prime.

End Prime.

(** ** Dictionaries *)

Section dict_facts.
Context {K V : Type} `{EqDecision K}.
Implicit Types (d : list (K * V)) (k : K).

Lemma dict_get_app k d d' :
  dict_get k (d ++ d') =
  match dict_get k d with Some v => Some v | None => dict_get k d' end.
Proof.
  induction d as [|[k' v] d IH]; simpl; [done|].
  case_decide; [done|apply IH].
Qed.

Lemma dict_get_update (f : V -> V) k k' d :
  dict_get k (update f k' d) =
  if decide (k' = k) then f <$> dict_get k d else dict_get k d.
Proof.
  induction d as [|[k0 v] d IH]; simpl.
  - by case_decide.
  - destruct (decide (k0 = k')) as [->|Hne]; simpl.
    + destruct (decide (k' = k)) as [->|]; simpl; by rewrite ?decide_True, ?decide_False.
    + destruct (decide (k0 = k)) as [->|]; simpl.
      * by rewrite decide_False by congruence.
      * apply IH.
Qed.

Lemma dict_get_elem k v d : dict_get k d = Some v -> (k, v) ∈ d.
Proof.
  induction d as [|[k' v'] d IH]; simpl; [done|].
  case_decide; intros; simplify_eq; [left|right; auto].
Qed.

Lemma dict_get_is_Some k d : k ∈ map fst d -> is_Some (dict_get k d).
Proof.
  induction d as [|[k' v'] d IH]; simpl.
  - intros Hin. inversion Hin.
  - intros Hin. case_decide; [eauto|].
    apply IH. inversion Hin; simplify_eq. done.
Qed.

Lemma update_keys (f : V -> V) k d : map fst (update f k d) = map fst d.
Proof.
  induction d as [|[k' v'] d IH]; simpl; [done|].
  case_decide; simpl; by rewrite ?IH.
Qed.
End dict_facts.

(** ** The parser *)

Section parser_facts.
Variable fields : list (string * string).
Implicit Types (phases : phases_t) (row : row_dict) (phase q : option string).

Lemma touch_get phase phases :
  is_Some (dict_get phase (Parser.touch fields phase phases)).
Proof.
  unfold Parser.touch. destruct (dict_get phase phases) eqn:E.
  - rewrite E. eauto.
  - rewrite dict_get_app, E. simpl. rewrite decide_True by done. eauto.
Qed.

Lemma touch_mono phase q phases :
  is_Some (dict_get q phases) ->
  is_Some (dict_get q (Parser.touch fields phase phases)).
Proof.
  intros [d Hd]. unfold Parser.touch.
  destruct (dict_get phase phases); [eauto|].
  rewrite dict_get_app, Hd. eauto.
Qed.

Lemma touch_keys_ok phase phases :
  keys_ok fields phases -> keys_ok fields (Parser.touch fields phase phases).
Proof.
  intros Hok k d. unfold Parser.touch.
  destruct (dict_get phase phases); [apply Hok|].
  rewrite dict_get_app. destruct (dict_get k phases) eqn:E.
  - intros; simplify_eq. by eapply Hok.
  - simpl. case_decide; [|done]. intros; simplify_eq.
    unfold Parser.default_factory. by rewrite map_map.
Qed.

Lemma append_stmt_state row phase phases f :
  (Parser.append_stmt fields row phase phases f).2 = Parser.touch fields phase phases \/
  exists v, (Parser.append_stmt fields row phase phases f).2 =
    update (update (fun l => l ++ [v]) f.1) phase (Parser.touch fields phase phases).
Proof.
  unfold Parser.append_stmt.
  destruct (dict_get phase _ ≫= dict_get f.1); [|by left].
  destruct (row !! f.2); [|by left].
  destruct (float_of_cell _); [right; eauto|by left].
Qed.

Lemma append_stmt_get row phase phases f :
  is_Some (dict_get phase (Parser.append_stmt fields row phase phases f).2).
Proof.
  destruct (append_stmt_state row phase phases f) as [->|[v ->]].
  - apply touch_get.
  - rewrite dict_get_update, decide_True by done.
    apply fmap_is_Some, touch_get.
Qed.

Lemma append_stmt_mono row phase phases f q :
  is_Some (dict_get q phases) ->
  is_Some (dict_get q (Parser.append_stmt fields row phase phases f).2).
Proof.
  intros Hq. destruct (append_stmt_state row phase phases f) as [->|[v ->]].
  - by apply touch_mono.
  - rewrite dict_get_update. case_decide; [apply fmap_is_Some|]; by apply touch_mono.
Qed.

Lemma append_stmt_keys_ok row phase phases f :
  keys_ok fields phases ->
  keys_ok fields (Parser.append_stmt fields row phase phases f).2.
Proof.
  intros Hok. destruct (append_stmt_state row phase phases f) as [->|[v ->]].
  - by apply touch_keys_ok.
  - intros k d. rewrite dict_get_update. case_decide.
    + destruct (dict_get k _) eqn:E; simpl; [|done]. intros; simplify_eq.
      rewrite update_keys. by eapply touch_keys_ok.
    + by apply touch_keys_ok.
Qed.

Lemma try_body_mono row phase stmts phases q :
  is_Some (dict_get q phases) ->
  is_Some (dict_get q (Parser.try_body fields row phase stmts phases).2).
Proof.
  revert phases. induction stmts as [|f stmts IH]; intros phases Hq; simpl; [done|].
  pose proof (append_stmt_mono row phase phases f q Hq) as Hm.
  destruct (Parser.append_stmt fields row phase phases f) as [[[]|e] phases'];
    simpl in *; auto.
Qed.

Lemma try_body_get row phase stmts phases :
  stmts <> [] ->
  is_Some (dict_get phase (Parser.try_body fields row phase stmts phases).2).
Proof.
  destruct stmts as [|f stmts]; [done|]. intros _. simpl.
  pose proof (append_stmt_get row phase phases f) as Hg.
  destruct (Parser.append_stmt fields row phase phases f) as [[[]|e] phases'];
    simpl in *; [by apply try_body_mono|done].
Qed.

Lemma try_body_keys_ok row phase stmts phases :
  keys_ok fields phases ->
  keys_ok fields (Parser.try_body fields row phase stmts phases).2.
Proof.
  revert phases. induction stmts as [|f stmts IH]; intros phases Hok; simpl; [done|].
  pose proof (append_stmt_keys_ok row phase phases f Hok) as Hm.
  destruct (Parser.append_stmt fields row phase phases f) as [[[]|e] phases'];
    simpl in *; auto.
Qed.

(** What an iteration that does not raise leaves behind is the state of
    its [try] body. *)
Lemma loop_body_Ok phases row phases' :
  Parser.loop_body fields phases row = Ok phases' ->
  exists phase, row !! "phase" = Some phase /\
    phases' = (Parser.try_body fields row phase fields phases).2.
Proof.
  unfold Parser.loop_body. destruct (row !! "phase") as [phase|]; [|done].
  intros Hb. exists phase. split; [done|].
  destruct (Parser.try_body fields row phase fields phases) as [[[]|[]] ps];
    simpl in *; congruence.
Qed.

Lemma loop_body_keys_ok phases row phases' :
  keys_ok fields phases ->
  Parser.loop_body fields phases row = Ok phases' -> keys_ok fields phases'.
Proof.
  intros Hok (phase & _ & ->)%loop_body_Ok. by apply try_body_keys_ok.
Qed.

Lemma parse_rows_inv (P : phases_t -> Prop) rows phases0 phases :
  (forall row phase ps, P ps -> P (Parser.try_body fields row phase fields ps).2) ->
  P phases0 ->
  for_each (Parser.loop_body fields) rows phases0 = Ok phases ->
  P phases.
Proof.
  intros Hstep. revert phases0.
  induction rows as [|row rows IH]; intros phases0 H0; simpl.
  - intros; by simplify_eq.
  - destruct (Parser.loop_body fields phases0 row) as [ps|] eqn:E; [|done].
    apply loop_body_Ok in E as (phase & _ & ->). apply IH. by apply Hstep.
Qed.

Lemma parse_rows_keys_ok rows phases :
  Parser.parse_rows fields rows = Ok phases -> keys_ok fields phases.
Proof.
  apply (parse_rows_inv (keys_ok fields)).
  - intros. by apply try_body_keys_ok.
  - intros k d. done.
Qed.

Lemma parse_rows_phase_kept rows phases0 phases row phase :
  fields <> [] ->
  for_each (Parser.loop_body fields) rows phases0 = Ok phases ->
  row ∈ rows -> row !! "phase" = Some phase ->
  is_Some (dict_get phase phases).
Proof.
  intros Hne. revert phases0.
  induction rows as [|r rows IH]; intros phases0 Hrun Hin Hph.
  - inversion Hin.
  - simpl in Hrun.
    destruct (Parser.loop_body fields phases0 r) as [ps|] eqn:E; [|done].
    apply elem_of_cons in Hin as [->|Hin]; [|by eapply IH].
    apply loop_body_Ok in E as (phase' & Hph' & ->).
    assert (phase' = phase) as -> by congruence.
    revert Hrun. apply (parse_rows_inv (fun ps => is_Some (dict_get phase ps))).
    + intros. by apply try_body_mono.
    + by apply try_body_get.
Qed.
End parser_facts.

(** A row all of whose metric cells convert is admitted in full. *)
Section valid_rows.
Variable fields : list (string * string).
Implicit Types (phases : phases_t) (row : row_dict) (phase : option string).

Lemma append_stmt_valid row phase phases f v :
  keys_ok fields phases -> f ∈ fields -> converts row f v ->
  Parser.append_stmt fields row phase phases f =
  (Ok (), update (update (fun l => l ++ [v]) f.1) phase (Parser.touch fields phase phases)).
Proof.
  intros Hok Hf (s & Hcell & Hconv). unfold Parser.append_stmt.
  destruct (touch_get fields phase phases) as [d Hd]. rewrite Hd. simpl.
  assert (is_Some (dict_get f.1 d)) as [l ->].
  { apply dict_get_is_Some.
    rewrite (touch_keys_ok fields phase phases Hok _ _ Hd).
    apply list_elem_of_fmap. eauto. }
  rewrite Hcell. simpl. by rewrite Hconv.
Qed.

Lemma try_body_valid row phase stmts vs phases :
  keys_ok fields phases -> stmts ⊆ fields ->
  Forall2 (converts row) stmts vs ->
  Parser.try_body fields row phase stmts phases =
  (Ok (), admitted fields phase (zip stmts vs) phases).
Proof.
  intros Hok Hsub Hall. revert phases Hok.
  induction Hall as [|f v stmts vs Hf _ IH]; intros phases Hok; simpl; [done|].
  pose proof (append_stmt_keys_ok fields row phase phases f Hok) as Hok'.
  assert (f ∈ fields) as Hin by (apply Hsub; left).
  rewrite (append_stmt_valid row phase phases f v Hok Hin Hf) in *.
  apply IH; [|done]. intros x Hx. apply Hsub. by right.
Qed.

Lemma loop_body_valid row phase vs phases :
  keys_ok fields phases -> row !! "phase" = Some phase ->
  Forall2 (converts row) fields vs ->
  Parser.loop_body fields phases row = Ok (admitted fields phase (zip fields vs) phases).
Proof.
  intros Hok Hph Hall. unfold Parser.loop_body. rewrite Hph.
  by rewrite (try_body_valid row phase fields vs phases).
Qed.
End valid_rows.

Lemma Forall2_choice {A B : Type} (P : A -> B -> Prop) (l : list A) :
  (forall x, x ∈ l -> exists y, P x y) -> exists ys, Forall2 P l ys.
Proof.
  induction l as [|x l IH]; intros Hall.
  - exists []. constructor.
  - destruct (Hall x) as [y Hy]; [left|].
    destruct IH as [ys Hys]; [intros; apply Hall; by right|].
    exists (y :: ys). by constructor.
Qed.

(** ** Properties *)

(** C1, as the code has it: a row whose [cpu_pct] does not convert still
    leaves its [power_w] value in the power sequence of its phase, since each
    value is appended before the next cell is converted. *)
Lemma C1_partial_row_admitted :
  let t := [header; row_bad_cpu] in
  Report.parse_csv t =
  Ok [ (Some "light_bat",
        [ ("power", [10%float]); ("cpu", []); ("temp", []); ("mem", []);
          ("load", []); ("disk_read", []); ("disk_write", []);
          ("net_rx", []); ("net_tx", []) ]) ]
  /\ exists phases data,
       Compare.parse_csv t = Ok phases /\
       dict_get (Some "light_bat") phases = Some data /\
       dict_get "power" data = Some [10%float] /\
       dict_get "cpu" data = Some [].
Proof.
  split; [by vm_compute|]. eexists _, _.
  do 3 (split; [vm_compute; reflexivity|]). vm_compute; reflexivity.
Qed.

(** C3, as the code has it: the lookup of [phase] stands outside the [try],
    so a header without that column raises [KeyError]; and a row shorter
    than the header has [None] cells, on which [float] raises a [TypeError]
    that the [except] clause does not name. *)
Lemma C3_parse_raises :
  Report.parse_csv [ ["power_w"; "cpu_pct"]; ["10"; "20"] ] = Raise (KeyError "phase")
  /\ Compare.parse_csv [ ["power_w"; "cpu_pct"]; ["10"; "20"] ] = Raise (KeyError "phase")
  /\ Report.parse_csv [ header; ["light_bat"; "10"] ] = Raise TypeError
  /\ Compare.parse_csv [ header; ["light_bat"; "10"] ] = Raise TypeError.
Proof. by vm_compute. Qed.

(** C4: the mean and the peak of the empty sequence are the number zero. *)
Theorem C4_empty_mean_and_peak_are_zero :
  Report.avg [] = 0%float /\ Report.peak [] = 0%float /\ Compare.avg [] = 0%float
  /\ PrimFloat.classify (Report.avg []) = PZero
  /\ PrimFloat.classify (Report.peak []) = PZero
  /\ PrimFloat.classify (Compare.avg []) = PZero.
Proof. by vm_compute. Qed.

(** C7, as the code has it: a file with exactly two valid rows of phase
    [light_bat], power 10 and 20, and a third [light_bat] row whose
    [cpu_pct] is not a number: the power of the third row, 30, is appended
    before its [cpu_pct] fails (the partial admission of C1), so the mean
    power of the phase is 20 and its peak 30, not 15 and 20. *)
Lemma C7_invalid_row_shifts_mean_and_peak :
  let t := [header; row_power_10; row_power_20; row_power_30_bad_cpu] in
  map (all_convert Report.fields) (DictReader t) = [true; true; false]
  /\ exists phases data power,
       Report.parse_csv t = Ok phases /\
       dict_get (Some "light_bat") phases = Some data /\
       dict_get "power" data = Some power /\
       power = [10%float; 20%float; 30%float] /\
       Report.avg power = 20%float /\ Report.peak power = 30%float /\
       ~ (Report.avg power = 15%float /\ Report.peak power = 20%float).
Proof.
  split; [by vm_compute|]. eexists _, _, _.
  do 3 (split; [vm_compute; reflexivity|]).
  split; [reflexivity|]. split; [by vm_compute|]. split; [by vm_compute|].
  intros [Havg _]. vm_compute in Havg. discriminate Havg.
Qed.

(** C10: the phase cell of every row read has an entry in the mapping the
    parser returns, with exactly the metric keys of the default factory,
    whether or not the row went on to be dropped. *)
Theorem C10_phase_of_every_row_has_entry (t : table) (row : row_dict)
    (phase : option string) :
  row ∈ DictReader t -> row !! "phase" = Some phase ->
  (forall phases, Report.parse_csv t = Ok phases ->
     exists data, dict_get phase phases = Some data /\
                  map fst data = map fst Report.fields) /\
  (forall phases, Compare.parse_csv t = Ok phases ->
     exists data, dict_get phase phases = Some data /\
                  map fst data = map fst Compare.fields).
Proof.
  intros Hrow Hph. split; intros phases Hparse.
  - destruct (parse_rows_phase_kept Report.fields (DictReader t) [] phases row phase)
      as [data Hdata]; [done..|].
    exists data. split; [done|]. by eapply parse_rows_keys_ok.
  - destruct (parse_rows_phase_kept Compare.fields (DictReader t) [] phases row phase)
      as [data Hdata]; [done..|].
    exists data. split; [done|]. by eapply parse_rows_keys_ok.
Qed.

(** A phase seen only in a dropped row: its entry is there, every sequence
    empty. *)
Lemma C10_dropped_row_witness :
  Report.parse_csv [header; row_bad_power] = Ok [(Some "idle_bat", no_values)]
  /\ exists data,
       dict_get (Some "idle_bat") [(Some "idle_bat", no_values)] = Some data /\
       map fst data = map fst Report.fields.
Proof.
  split; [by vm_compute|].
  refine (proj1 (C10_phase_of_every_row_has_entry [header; row_bad_power]
                   (DictReader_row header row_bad_power) (Some "idle_bat") _ _) _ _).
  - left.
  - by vm_compute.
  - by vm_compute.
Defined.

(** ** Buckets *)

Lemma bucket_get_insert (b : bucket) (k m : string) (vs : list float) :
  bucket_get (<[k := vs]> b) m = if decide (k = m) then vs else bucket_get b m.
Proof.
  unfold bucket_get. rewrite lookup_insert. by case_decide.
Qed.

Lemma values_of_cons (m k : string) (vs : list float) (data : phase_data) :
  values_of m ((k, vs) :: data) = (if decide (k = m) then vs else []) ++ values_of m data.
Proof.
  unfold values_of. rewrite filter_cons. simpl. by case_decide.
Qed.

Lemma extend_all_get (b : bucket) (data : phase_data) (m : string) :
  bucket_get (extend_all b data) m = bucket_get b m ++ values_of m data.
Proof.
  unfold extend_all. revert b.
  induction data as [|[k vs] data IH]; intros b; simpl.
  - unfold values_of. simpl. by rewrite app_nil_r.
  - rewrite IH, bucket_get_insert, values_of_cons.
    case_decide; subst; by rewrite <- ?app_assoc.
Qed.

Lemma pour_get (b : bucket) (ds : list phase_data) (m : string) :
  bucket_get (pour b ds) m = bucket_get b m ++ concat (map (values_of m) ds).
Proof.
  unfold pour. revert b. induction ds as [|d ds IH]; intros b; simpl.
  - by rewrite app_nil_r.
  - by rewrite IH, extend_all_get, <- app_assoc.
Qed.

Lemma bucket_get_empty (m : string) : bucket_get ∅ m = [].
Proof. unfold bucket_get. by rewrite lookup_empty. Qed.

Lemma chosen_app P l1 l2 : chosen P (l1 ++ l2) = chosen P l1 ++ chosen P l2.
Proof. unfold chosen. by rewrite filter_app, map_app. Qed.

Lemma chosen_cons P name data l :
  chosen P ((name, data) :: l) = (if P name then [data] else []) ++ chosen P l.
Proof.
  unfold chosen. rewrite filter_cons. simpl.
  destruct (P name); by simpl.
Qed.

Lemma select_named (sub : string) (l : list (string * phase_data)) :
  Report.select sub (named l) = Ok (named (filter (fun kv => str_in sub kv.1) l)).
Proof.
  induction l as [|[name data] l IH]; simpl; [done|].
  rewrite IH, filter_cons. simpl. by destruct (str_in sub name).
Qed.

Lemma accumulate_named (l : list (string * phase_data)) :
  Report.accumulate (named l) = pour ∅ (map snd l).
Proof.
  unfold Report.accumulate, pour. generalize (∅ : bucket).
  induction l as [|[name data] l IH]; intros b; simpl; [done|apply IH].
Qed.

Lemma report_bucket_named (sub : string) (l : list (string * phase_data)) :
  report_bucket sub (named l) = Ok (pour ∅ (chosen (str_in sub) l)).
Proof.
  unfold report_bucket. rewrite select_named. simpl. by rewrite accumulate_named.
Qed.

Lemma aggregate_named (l : list (string * phase_data)) (b a : bucket) :
  for_each Compare.aggregate_step (named l) (b, a) =
  Ok (pour b (chosen (str_in "_bat") l),
      pour a (chosen (fun name => negb (str_in "_bat" name)) l)).
Proof.
  revert b a. induction l as [|[name data] l IH]; intros b a; simpl; [done|].
  rewrite !chosen_cons. destruct (str_in "_bat" name); simpl; by rewrite IH.
Qed.

Lemma compare_battery_named (l : list (string * phase_data)) :
  compare_battery (named l) = Ok (pour ∅ (chosen (str_in "_bat") l)).
Proof.
  unfold compare_battery, Compare.aggregate_by_power_mode. by rewrite aggregate_named.
Qed.

Lemma compare_ac_named (l : list (string * phase_data)) :
  compare_ac (named l) =
  Ok (pour ∅ (chosen (fun name => negb (str_in "_bat" name)) l)).
Proof.
  unfold compare_ac, Compare.aggregate_by_power_mode. by rewrite aggregate_named.
Qed.

(** An aggregation that pours the phases chosen by [P] is fed by the
    phases [P] holds of and bypassed by the others. *)
Section chosen_phases.
Variables (agg : phases_t -> result bucket) (P : string -> bool).
Hypothesis agg_chosen : forall l, agg (named l) = Ok (pour ∅ (chosen P l)).

Lemma chosen_feeds name data : P name = true -> feeds agg name data.
Proof.
  intros HP pre post m. eexists _, _, _.
  split_and!; [apply agg_chosen..|].
  rewrite !pour_get, !bucket_get_empty, chosen_app, chosen_cons, HP.
  simpl. by rewrite !map_app, !concat_app.
Qed.

Lemma chosen_bypasses name data : P name = false -> bypasses agg name data.
Proof.
  intros HP pre post. split; [eexists; apply agg_chosen|].
  by rewrite !agg_chosen, !chosen_app, chosen_cons, HP.
Qed.
End chosen_phases.

(** C2, as the code has it: a name with [_bat] and without [_ac] feeds the
    battery bucket only, a name with [_ac] and without [_bat] the AC bucket
    only; a name with both feeds the battery bucket (and, in the report, the
    AC bucket too); in the report a name with neither feeds no bucket. *)
Theorem C2_bucket_membership (name : string) (data : phase_data) :
  (str_in "_bat" name = true -> str_in "_ac" name = false ->
     feeds (report_bucket "_bat") name data /\ bypasses (report_bucket "_ac") name data /\
     feeds compare_battery name data /\ bypasses compare_ac name data) /\
  (str_in "_ac" name = true -> str_in "_bat" name = false ->
     feeds (report_bucket "_ac") name data /\ bypasses (report_bucket "_bat") name data /\
     feeds compare_ac name data /\ bypasses compare_battery name data) /\
  (str_in "_bat" name = true -> str_in "_ac" name = true ->
     feeds (report_bucket "_bat") name data /\ feeds (report_bucket "_ac") name data /\
     feeds compare_battery name data /\ bypasses compare_ac name data) /\
  (str_in "_bat" name = false -> str_in "_ac" name = false ->
     bypasses (report_bucket "_bat") name data /\ bypasses (report_bucket "_ac") name data).
Proof.
  pose proof (chosen_feeds _ _ (report_bucket_named "_bat") name data) as Frb.
  pose proof (chosen_feeds _ _ (report_bucket_named "_ac") name data) as Fra.
  pose proof (chosen_bypasses _ _ (report_bucket_named "_bat") name data) as Brb.
  pose proof (chosen_bypasses _ _ (report_bucket_named "_ac") name data) as Bra.
  pose proof (chosen_feeds _ _ compare_battery_named name data) as Fcb.
  pose proof (chosen_bypasses _ _ compare_battery_named name data) as Bcb.
  pose proof (chosen_feeds _ _ compare_ac_named name data) as Fca.
  pose proof (chosen_bypasses _ _ compare_ac_named name data) as Bca.
  simpl in *.
  split_and!; intros Hb Ha; rewrite ?Hb, ?Ha in *; split_and!; auto.
Qed.

Lemma C2_light_bat_witness :
  feeds (report_bucket "_bat") "light_bat" one_value /\
  bypasses (report_bucket "_ac") "light_bat" one_value /\
  feeds compare_battery "light_bat" one_value /\
  bypasses compare_ac "light_bat" one_value.
Proof.
  apply (proj1 (C2_bucket_membership "light_bat" one_value)); reflexivity.
Defined.

(** A name with both substrings is not left out of the buckets. *)
Lemma C2_both_substrings_counterexample :
  str_in "_bat" "turbo_bat_ac" = true /\ str_in "_ac" "turbo_bat_ac" = true /\
  ~ bypasses (report_bucket "_bat") "turbo_bat_ac" one_value /\
  ~ bypasses (report_bucket "_ac") "turbo_bat_ac" one_value /\
  ~ bypasses compare_battery "turbo_bat_ac" one_value.
Proof.
  split_and!; [done..| | |]; intros Hby; destruct (Hby [] []) as [_ Heq];
    apply (f_equal (fun r => match r with
                            | Ok b => bucket_get b "power"
                            | Raise _ => []
                            end)) in Heq;
    vm_compute in Heq; discriminate.
Qed.

(** ** get_run_info *)

Lemma prefix_app (p s : string) :
  String.prefix p s = true -> exists rest, s = p +:+ rest.
Proof.
  revert s. induction p as [|a p IH]; intros s; simpl.
  - intros _. by exists s.
  - destruct s as [|b s]; [done|]. simpl. destruct (ascii_dec a b) as [->|]; [|done].
    intros [rest ->]%IH. by exists rest.
Qed.

Lemma startswith_app (p rest : string) : startswith p (p +:+ rest) = true.
Proof.
  unfold startswith. induction p as [|a p IH]; [by destruct rest|].
  change (String a p +:+ rest) with (String a (p +:+ rest)). simpl.
  by destruct (ascii_dec a a).
Qed.

Lemma split_head (s : string) : exists tl, split ":" s = before_colon s :: tl.
Proof.
  induction s as [|c s [tl IH]]; simpl; [by eexists|].
  destruct (Ascii.eqb c ":"); [by eexists|]. rewrite IH. by eexists.
Qed.

Lemma split_at_colon (p rest : string) :
  before_colon p = p ->
  split ":" (p +:+ String ":" rest) = p :: split ":" rest.
Proof.
  induction p as [|c p IH]; [done|].
  change (String c p +:+ String ":" rest) with (String c (p +:+ String ":" rest)).
  simpl. destruct (Ascii.eqb c ":"); [done|].
  intros [= Hp]. by rewrite (IH Hp).
Qed.

Lemma second_field_after_colon (p rest : string) :
  before_colon p = p ->
  Compare.second_field (p +:+ String ":" rest) = Ok (strip (before_colon rest)).
Proof.
  intros Hp. unfold Compare.second_field. rewrite (split_at_colon p rest Hp).
  by destruct (split_head rest) as [tl ->].
Qed.

Lemma read_line_desktop (info : Compare.run_info) (rest : string) :
  Compare.read_line info ("Desktop:" +:+ rest) =
  Ok {| Compare.de := strip (before_colon rest);
        Compare.run_type := Compare.run_type info |}.
Proof.
  unfold Compare.read_line.
  rewrite startswith_app.
  change (startswith "Run Type:" ("Desktop:" +:+ rest)) with false.
  cbv iota. change ("Desktop:" +:+ rest) with ("Desktop" +:+ String ":" rest).
  by rewrite (second_field_after_colon "Desktop" rest eq_refl).
Qed.

Lemma read_line_run_type (info : Compare.run_info) (rest : string) :
  Compare.read_line info ("Run Type:" +:+ rest) =
  Ok {| Compare.de := Compare.de info;
        Compare.run_type := strip (before_colon rest) |}.
Proof.
  unfold Compare.read_line.
  change (startswith "Desktop:" ("Run Type:" +:+ rest)) with false.
  rewrite startswith_app.
  cbv iota. change ("Run Type:" +:+ rest) with ("Run Type" +:+ String ":" rest).
  by rewrite (second_field_after_colon "Run Type" rest eq_refl).
Qed.

Lemma read_line_other (info : Compare.run_info) (line : string) :
  startswith "Desktop:" line = false -> startswith "Run Type:" line = false ->
  Compare.read_line info line = Ok info.
Proof. unfold Compare.read_line. by intros -> ->. Qed.

Lemma read_line_returns (info : Compare.run_info) (line : string) :
  returns (Compare.read_line info line).
Proof.
  destruct (startswith "Desktop:" line) eqn:Hd.
  { apply prefix_app in Hd as [rest ->]. rewrite read_line_desktop. by eexists. }
  destruct (startswith "Run Type:" line) eqn:Hr.
  { apply prefix_app in Hr as [rest ->]. rewrite read_line_run_type. by eexists. }
  rewrite read_line_other by done. by eexists.
Qed.

(** C9, as the code has it: the value of a [Desktop:] or [Run Type:] line
    is the text between its first colon and the next one (or the end of the
    line), trimmed; a line with neither prefix leaves both values as they
    were. *)
Theorem C9_value_is_second_field (info : Compare.run_info) :
  (forall rest,
     Compare.read_line info ("Desktop:" +:+ rest) =
     Ok {| Compare.de := strip (before_colon rest);
           Compare.run_type := Compare.run_type info |}) /\
  (forall rest,
     Compare.read_line info ("Run Type:" +:+ rest) =
     Ok {| Compare.de := Compare.de info;
           Compare.run_type := strip (before_colon rest) |}) /\
  (forall line,
     startswith "Desktop:" line = false -> startswith "Run Type:" line = false ->
     Compare.read_line info line = Ok info).
Proof.
  split_and!.
  - apply read_line_desktop.
  - apply read_line_run_type.
  - apply read_line_other.
Qed.

Lemma C9_other_line_witness :
  Compare.read_line {| Compare.de := "KDE"; Compare.run_type := "battery" |}
    "Kernel: 6.1" =
  Ok {| Compare.de := "KDE"; Compare.run_type := "battery" |}.
Proof.
  apply (proj2 (proj2 (C9_value_is_second_field
                         {| Compare.de := "KDE"; Compare.run_type := "battery" |})));
    reflexivity.
Defined.

(** A value with a colon of its own is cut at that colon. *)
Lemma C9_second_colon_counterexample :
  Compare.get_run_info (Some "Desktop: KDE: Plasma") =
  Ok {| Compare.de := "KDE"; Compare.run_type := "unknown" |}
  /\ strip (after_first_colon "Desktop: KDE: Plasma") = "KDE: Plasma"
  /\ "KDE" <> strip (after_first_colon "Desktop: KDE: Plasma").
Proof. split_and!; [by vm_compute..|]. by vm_compute. Qed.

(** ** Charts *)

Lemma bind_Ok {A B : Type} (m : result A) (f : A -> result B) (y : B) :
  m ≫= f = Ok y -> exists x, m = Ok x /\ f x = Ok y.
Proof. destruct m as [x|]; [|done]. intros Hf. by exists x. Qed.

Lemma comprehension_elem {A B : Type} (f : A -> result B) (l : list A) (ys : list B) (y : B) :
  comprehension f l = Ok ys -> y ∈ ys -> exists x, x ∈ l /\ f x = Ok y.
Proof.
  revert ys. induction l as [|x l IH]; intros ys; simpl.
  - intros [= <-] Hin. by apply elem_of_nil in Hin.
  - destruct (f x) as [y'|] eqn:Hfx; [|done].
    destruct (comprehension f l) as [ys'|]; [|done].
    intros [= <-] [->|Hin]%elem_of_cons.
    + exists x. split; [left|done].
    + destruct (IH ys' eq_refl Hin) as (x' & ? & ?). exists x'. split; [by right|done].
Qed.

Lemma comprehension_length {A B : Type} (f : A -> result B) (l : list A) (ys : list B) :
  comprehension f l = Ok ys -> length ys = length l.
Proof.
  revert ys. induction l as [|x l IH]; intros ys; simpl.
  - by intros [= <-].
  - destruct (f x); [|done]. destruct (comprehension f l) as [ys'|]; [|done].
    intros [= <-]. simpl. by rewrite (IH ys').
Qed.

Lemma comparison_chart_ylim all_data labels cfg (c : Compare.chart) :
  labels <> [] ->
  Compare.comparison_chart all_data labels cfg = Ok c ->
  Compare.values c <> [] /\
  exists m, Py.max (Compare.values c) = Ok m /\
            Compare.ylim_top c = Some (m * 0x1.3333333333333p+0)%float.
Proof.
  intros Hlabels. destruct cfg as [[key yl] ti]. unfold Compare.comparison_chart.
  intros (vals & Hvals & Hc)%bind_Ok.
  apply comprehension_length in Hvals.
  destruct vals as [|v vals]; [by destruct labels|].
  apply bind_Ok in Hc as (top & [= <-] & [= <-]).
  simpl. split; [done|]. by eexists.
Qed.

(** C8, as the code has it: every per-metric chart has at least one plotted
    value and its upper limit is the maximum times 1.2, whatever the
    values are. *)
Theorem C8_ylim_is_max_times_1_2 (results_dirs : list Compare.results_dir)
    (charts dashboard : list Compare.chart) (c : Compare.chart) :
  Compare.create_comparison_charts results_dirs = Ok (Some (charts, dashboard)) ->
  c ∈ charts ->
  Compare.values c <> [] /\
  exists m, Py.max (Compare.values c) = Ok m /\
            Compare.ylim_top c = Some (m * 0x1.3333333333333p+0)%float.
Proof.
  unfold Compare.create_comparison_charts.
  intros (all_data & _ & Hrun)%bind_Ok Hin.
  destruct all_data as [|kv all_data]; [done|].
  apply bind_Ok in Hrun as (cs & Hcs & Hrun).
  apply bind_Ok in Hrun as (ds & _ & [= -> ->]).
  destruct (comprehension_elem _ _ _ _ Hcs Hin) as (cfg & _ & Hc).
  eapply comparison_chart_ylim; [|exact Hc]. by simpl.
Qed.

Lemma C8_zero_run_witness :
  exists charts dashboard c,
    Compare.create_comparison_charts [zero_run] = Ok (Some (charts, dashboard)) /\
    c ∈ charts /\ Compare.metric_key c = "power" /\
    Compare.values c <> [] /\
    exists m, Py.max (Compare.values c) = Ok m /\
              Compare.ylim_top c = Some (m * 0x1.3333333333333p+0)%float.
Proof.
  destruct (Compare.create_comparison_charts [zero_run]) as [[[charts dashboard]|]|] eqn:E;
    [|by vm_compute in E..].
  destruct charts as [|c charts]; [by vm_compute in E|].
  exists (c :: charts), dashboard, c.
  split; [done|]. split; [left|]. split.
  - vm_compute in E. by injection E as <- _ _.
  - apply (C8_ylim_is_max_times_1_2 [zero_run] (c :: charts) dashboard c E). left.
Defined.

(** All plotted values zero: the upper limit is zero, not one. *)
Lemma C8_all_zero_counterexample :
  exists charts dashboard c,
    Compare.create_comparison_charts [zero_run] = Ok (Some (charts, dashboard)) /\
    c ∈ charts /\
    Compare.values c = [0%float] /\
    Compare.ylim_top c = Some 0%float /\
    Compare.ylim_top c <> Some 1%float.
Proof.
  eexists _, _, _. split_and!.
  - by vm_compute.
  - left.
  - done.
  - done.
  - simpl. by intros [= H].
Qed.


(** ** Text *)

Lemma append_assoc (a b c : string) : (a +:+ b) +:+ c = a +:+ b +:+ c.
Proof.
  induction a as [|x a IH]; [done|].
  change ((String x a +:+ b) +:+ c) with (String x ((a +:+ b) +:+ c)).
  change (String x a +:+ b +:+ c) with (String x (a +:+ b +:+ c)).
  by rewrite IH.
Qed.

Lemma infix_app_r (s a b : string) : infix s b -> infix s (a +:+ b).
Proof.
  intros (x & y & ->). exists (a +:+ x), y. by rewrite append_assoc.
Qed.

Lemma infix_app_l (s a b : string) : infix s a -> infix s (a +:+ b).
Proof.
  intros (x & y & ->). exists x, (y +:+ b). by rewrite !append_assoc.
Qed.

Lemma infix_text (l : string) (ls : list string) :
  l ∈ ls -> infix (l +:+ nl) (text ls).
Proof.
  induction ls as [|l' ls IH]; intros Hin; [by apply elem_of_nil in Hin|].
  apply elem_of_cons in Hin as [->|Hin].
  - exists "", (text ls). simpl. by rewrite append_assoc.
  - change (text (l' :: ls)) with (l' +:+ nl +:+ text ls).
    rewrite <- append_assoc. apply infix_app_r. by apply IH.
Qed.

Lemma in_order_app_r (ps : list string) (a b : string) :
  in_order ps b -> in_order ps (a +:+ b).
Proof.
  destruct ps as [|p ps]; [done|].
  intros (x & y & -> & Hy). exists (a +:+ x), y. by rewrite append_assoc.
Qed.

Lemma in_order_app (ps qs : list string) (a b : string) :
  in_order ps a -> in_order qs b -> in_order (ps ++ qs) (a +:+ b).
Proof.
  revert a. induction ps as [|p ps IH]; intros a Ha Hb; simpl.
  - by apply in_order_app_r.
  - destruct Ha as (x & y & -> & Hy). exists x, (y +:+ b).
    split; [by rewrite !append_assoc|]. by apply IH.
Qed.

Lemma in_order_app_l (ps : list string) (a b : string) :
  in_order ps a -> in_order ps (a +:+ b).
Proof.
  intros Ha. rewrite <- (app_nil_r ps). by apply in_order_app.
Qed.

Lemma in_order_text_hit (l : string) (ps ls : list string) :
  in_order ps (text ls) -> in_order (l :: ps) (text (l :: ls)).
Proof.
  intros H. exists "", (nl +:+ text ls). split; [done|]. by apply in_order_app_r.
Qed.

Lemma in_order_text_skip (l : string) (ps ls : list string) :
  in_order ps (text ls) -> in_order ps (text (l :: ls)).
Proof.
  intros H. change (text (l :: ls)) with (l +:+ nl +:+ text ls).
  by do 2 apply in_order_app_r.
Qed.

Ltac in_order_text :=
  repeat first [ exact I | apply in_order_text_hit | apply in_order_text_skip ].

Lemma report_head_sections (system_info : string) :
  in_order [ "# Desktop Environment Benchmark Report"; "## System Information";
             "## Summary by Phase"; "### Battery Phases" ]
    (Report.report_head system_info).
Proof.
  unfold Report.report_head.
  apply (in_order_app [_; _] [_; _]); [in_order_text|].
  apply in_order_app_r. in_order_text.
Qed.

Lemma ac_head_sections : in_order ["### AC Phases"] Report.ac_head.
Proof. unfold Report.ac_head. in_order_text. Qed.

Lemma summary_sections (all_battery all_ac : bucket) :
  in_order ["## Overall Summary"; "## I/O Summary"; "## Raw Data"]
    (Report.summary all_battery all_ac).
Proof. unfold Report.summary. in_order_text. Qed.

(** ** The report *)

Lemma bind_ret_l {A B : Type} (x : A) (f : A -> result B) : Ok x ≫= f = f x.
Proof. done. Qed.

Lemma dict_get_named_chosen (P : string -> bool) (l : list (string * phase_data))
    (key : string) :
  dict_get (Some key) (named (filter (fun kv => P kv.1) l)) =
  if P key then dict_get (Some key) (named l) else None.
Proof.
  induction l as [|[name data] l IH]; simpl; [by destruct (P key)|].
  rewrite filter_cons. simpl.
  destruct (decide (name = key)) as [->|Hne].
  - rewrite (decide_True (P := Some key = Some key)) by done.
    destruct (P key) eqn:HP; simpl; [by rewrite decide_True|].
    rewrite IH. by rewrite ?HP.
  - rewrite (decide_False (P := Some name = Some key)) by congruence.
    destruct (P name); simpl; [|done]. by rewrite decide_False by congruence.
Qed.


(** A phase with the keys of the default factory has a table row. *)
Lemma table_row_returns (key : string) (data : phase_data) :
  map fst data = map fst Report.fields -> returns (Report.table_row key data).
Proof.
  intros Hkeys. unfold Report.table_row, getitem.
  assert (forall m, m ∈ map fst Report.fields -> is_Some (dict_get m data)) as Hget.
  { intros m Hm. apply dict_get_is_Some. by rewrite Hkeys. }
  destruct (Hget "power") as [? ->]; [set_solver|].
  destruct (Hget "cpu") as [? ->]; [set_solver|].
  destruct (Hget "temp") as [? ->]; [set_solver|].
  destruct (Hget "mem") as [? ->]; [set_solver|].
  by eexists.
Qed.

Lemma table_rows_returns (keys : list string) (sel : phases_t) :
  (forall k d, dict_get k sel = Some d -> map fst d = map fst Report.fields) ->
  returns (Report.table_rows keys sel).
Proof.
  intros Hok. induction keys as [|key keys [rows IH]]; simpl; [by eexists|].
  destruct (dict_get (Some key) sel) as [data|] eqn:E; [|by eexists].
  destruct (table_row_returns key data) as [row ->]; [by eapply Hok|].
  rewrite IH. by eexists.
Qed.

Lemma named_keys_ok (l : list (string * phase_data)) (P : string -> bool) :
  keys_ok Report.fields (named l) ->
  keys_ok Report.fields (named (filter (fun kv => P kv.1) l)).
Proof.
  intros Hok [key|] d.
  - rewrite dict_get_named_chosen. destruct (P key); [apply Hok|done].
  - clear Hok. induction (filter _ l) as [|[??] ? IH]; simpl; [done|].
    apply IH.
Qed.

(** The document [render] writes for a mapping of named phases that have
    the keys of the default factory. *)
Lemma render_named (l : list (string * phase_data)) (system_info : option string)
    (dashboard_exists : bool) :
  keys_ok Report.fields (named l) ->
  exists battery_rows ac_rows,
    Report.table_rows Report.battery_keys
      (named (filter (fun kv => str_in "_bat" kv.1) l)) = Ok battery_rows /\
    Report.table_rows Report.ac_keys
      (named (filter (fun kv => str_in "_ac" kv.1) l)) = Ok ac_rows /\
    Report.render (named l) system_info dashboard_exists =
    Ok (Report.report_head (default "N/A" system_info) +:+ battery_rows +:+
        Report.ac_head +:+ ac_rows +:+
        (match named (filter (fun kv => str_in "_ac" kv.1) l) with
         | [] => Report.placeholder_row
         | _ => ""
         end) +:+
        Report.summary (pour ∅ (chosen (str_in "_bat") l))
                       (pour ∅ (chosen (str_in "_ac") l)) +:+
        (if dashboard_exists then Report.graphs else "")).
Proof.
  intros Hok.
  destruct (table_rows_returns Report.battery_keys
              (named (filter (fun kv => str_in "_bat" kv.1) l))) as [brows Hb].
  { by apply named_keys_ok. }
  destruct (table_rows_returns Report.ac_keys
              (named (filter (fun kv => str_in "_ac" kv.1) l))) as [arows Ha].
  { by apply named_keys_ok. }
  exists brows, arows. split; [done|]. split; [done|].
  unfold Report.render. rewrite !select_named, !bind_ret_l. cbv zeta.
  rewrite Hb, bind_ret_l, Ha, bind_ret_l. by rewrite !accumulate_named.
Qed.

Lemma infix_prefix (s b : string) : infix s (s +:+ b).
Proof. by exists "", b. Qed.

Lemma typed_keys_ok (l : list (string * Phase)) : keys_ok Report.fields (typed l).
Proof.
  intros k d Hget. apply dict_get_elem in Hget. unfold typed, named in Hget.
  rewrite map_map in Hget. apply list_elem_of_fmap in Hget as ([name ph] & [= _ ->] & _).
  done.
Qed.

Ltac find_line :=
  solve [ repeat first [ apply list_elem_of_here | apply list_elem_of_further ] ].

Lemma text_app (l1 l2 : list string) : text (l1 ++ l2) = text l1 +:+ text l2.
Proof.
  induction l1 as [|l l1 IH]; simpl; [done|]. by rewrite IH, !append_assoc.
Qed.

Lemma sequence_data (phases : phases_t) (key : option string) (data : phase_data)
    (metric : string) (values : list float) :
  dict_get key phases = Some data -> dict_get metric data = Some values ->
  sequence phases key metric = values.
Proof. unfold sequence. intros Hdata Hvalues. rewrite Hdata. simpl. by rewrite Hvalues. Qed.

(** The line the code writes for a phase is the line of the table. *)
Lemma table_row_line (phases : phases_t) (key shown : string) (data : phase_data) :
  dict_get (Some key) phases = Some data ->
  map fst data = map fst Report.fields ->
  default key (dict_get key Report.phase_names) = shown ->
  Report.table_row key data = Ok (phase_line phases key shown).
Proof.
  intros Hdata Hkeys <-. unfold Report.table_row, getitem, phase_line.
  assert (forall m, m ∈ map fst Report.fields -> is_Some (dict_get m data)) as Hget.
  { intros m Hm. apply dict_get_is_Some. by rewrite Hkeys. }
  destruct (Hget "power") as [power Hpower]; [set_solver|].
  destruct (Hget "cpu") as [cpu Hcpu]; [set_solver|].
  destruct (Hget "temp") as [temp Htemp]; [set_solver|].
  destruct (Hget "mem") as [mem Hmem]; [set_solver|].
  rewrite Hpower, Hcpu, Htemp, Hmem. simpl.
  by rewrite (sequence_data _ _ _ _ _ Hdata Hpower), (sequence_data _ _ _ _ _ Hdata Hcpu),
    (sequence_data _ _ _ _ _ Hdata Htemp), (sequence_data _ _ _ _ _ Hdata Hmem).
Qed.

Lemma table_rows_lines (sel phases : phases_t) (canon : list (string * string)) :
  keys_ok Report.fields phases ->
  Forall (fun ks => dict_get (Some ks.1) sel = dict_get (Some ks.1) phases /\
                    default ks.1 (dict_get ks.1 Report.phase_names) = ks.2) canon ->
  Report.table_rows (map fst canon) sel = Ok (phase_lines phases canon).
Proof.
  intros Hok. induction 1 as [|[key shown] canon [Hsel Hshown] _ IH]; simpl; [done|].
  simpl in Hsel, Hshown. rewrite Hsel.
  destruct (dict_get (Some key) phases) as [data|] eqn:E; [|done].
  by rewrite (table_row_line phases key shown data E (Hok _ _ E) Hshown), bind_ret_l, IH.
Qed.

(** The rows of a table whose keys all contain the substring the phases
    were selected by. *)
Lemma canonical_rows (sub : string) (l : list (string * phase_data))
    (canon : list (string * string)) :
  keys_ok Report.fields (named l) ->
  Forall (fun ks => str_in sub ks.1 = true /\
                    default ks.1 (dict_get ks.1 Report.phase_names) = ks.2) canon ->
  Report.table_rows (map fst canon) (named (filter (fun kv => str_in sub kv.1) l)) =
  Ok (phase_lines (named l) canon).
Proof.
  intros Hok Hcanon. apply table_rows_lines; [done|].
  eapply Forall_impl; [exact Hcanon|]. intros [key shown] [Hsub Hshown]. simpl in *.
  split; [|done]. by rewrite dict_get_named_chosen, Hsub.
Qed.

Lemma canonical_battery_ok :
  Forall (fun ks => str_in "_bat" ks.1 = true /\
                    default ks.1 (dict_get ks.1 Report.phase_names) = ks.2)
         canonical_battery.
Proof. repeat constructor. Qed.

Lemma canonical_ac_ok :
  Forall (fun ks => str_in "_ac" ks.1 = true /\
                    default ks.1 (dict_get ks.1 Report.phase_names) = ks.2)
         canonical_ac.
Proof. repeat constructor. Qed.

Lemma report_head_table (system_info : string) :
  exists before,
    Report.report_head system_info =
    before +:+ text ("### Battery Phases" :: table_heading).
Proof.
  unfold Report.report_head.
  exists (text [ "# Desktop Environment Benchmark Report"; "";
                 "## System Information"; ""; "```" ]
          +:+ strip system_info +:+
          text [""; "```"; ""; "---"; ""; "## Summary by Phase"; ""]).
  by rewrite !append_assoc, <- text_app.
Qed.

Lemma ac_head_table : Report.ac_head = text ("" :: "### AC Phases" :: table_heading).
Proof. done. Qed.

Lemma summary_opening (bat ac : bucket) :
  exists rest,
    Report.summary bat ac = text [""; "---"; ""; "## Overall Summary"] +:+ rest.
Proof.
  unfold Report.summary. eexists.
  exact (text_app [""; "---"; ""; "## Overall Summary"] _).
Qed.

(** A line of the summary tables: the statistic of the battery values,
    whatever they are, and that of the AC values or [N/A] when there are
    none. *)
Lemma summary_line (bat ac : bucket) (label : string)
    (stat : list float -> float) (p : nat) (metric : string) :
  (label, stat, p, metric) ∈ summary_lines ->
  infix (("| " +:+ label +:+ " | " +:+ format_f p (stat (bucket_get bat metric)) +:+
          " | " +:+
          match bucket_get ac metric with
          | [] => "N/A"
          | values => format_f p (stat values)
          end +:+ " |") +:+ nl)
        (Report.summary bat ac).
Proof.
  intros Hline. unfold summary_lines in Hline.
  repeat (apply elem_of_cons in Hline as [[= -> -> -> ->]|Hline];
          [ unfold Report.summary, Report.ac_cell, Report.battery_cell;
            apply infix_text; find_line | ]).
  by apply elem_of_nil in Hline.
Qed.

Lemma summary_zero (label : string) (stat : list float -> float) (p : nat)
    (metric : string) :
  (label, stat, p, metric) ∈ summary_lines ->
  format_f p (stat []) = if decide (p = 1%nat) then "0.0" else "0.00".
Proof.
  intros Hline. unfold summary_lines in Hline.
  repeat (apply elem_of_cons in Hline as [[= -> -> -> ->]|Hline]; [by vm_compute|]).
  by apply elem_of_nil in Hline.
Qed.

Lemma bucket_values_get (sub : string) (l : list (string * Phase)) (metric : string) :
  bucket_get (pour ∅ (chosen (str_in sub) (map (fun kv => (kv.1, as_data kv.2)) l))) metric
  = bucket_values sub l metric.
Proof.
  rewrite pour_get, bucket_get_empty. simpl. unfold bucket_values, chosen. f_equal.
  induction l as [|[name ph] l IH]; [done|].
  rewrite map_cons, !filter_cons. simpl. destruct (str_in sub name); simpl; by rewrite IH.
Qed.

Lemma placeholder_skipped (l : list (string * Phase)) :
  match named (filter (fun kv => str_in "_ac" kv.1)
                      (map (fun kv => (kv.1, as_data kv.2)) l)) with
  | [] => Report.placeholder_row
  | _ => ""
  end = if no_ac_phase l then skipped_row else "".
Proof.
  induction l as [|[name ph] l IH]; [done|].
  rewrite map_cons, filter_cons. unfold no_ac_phase. simpl.
  destruct (str_in "_ac" name); simpl; [done|]. apply IH.
Qed.

(** C6, as the code has it: rendering a mapping of named phases returns a
    document that has the sections of a report in their order.  Each of the
    two tables holds the lines of its canonical phases; the row
    [(Skipped - validation mode)] closes the AC table when no phase is an AC
    phase, while a battery table without phases gets no such row.  Every line
    of the summary tables shows [N/A] in the AC cell when there is no AC
    value, and in the battery cell the statistic of the battery values, which
    prints as zero when there are none. *)
Theorem C6_render_of_named_phases (l : list (string * Phase))
    (system_info : option string) (dashboard_exists : bool) :
  exists doc before after,
    Report.render (typed l) system_info dashboard_exists = Ok doc /\
    in_order report_sections doc /\
    doc = before +:+
          text ("### Battery Phases" :: table_heading) +:+
          phase_lines (typed l) canonical_battery +:+
          text ("" :: "### AC Phases" :: table_heading) +:+
          phase_lines (typed l) canonical_ac +:+
          (if no_ac_phase l then skipped_row else "") +:+
          text [""; "---"; ""; "## Overall Summary"] +:+ after /\
    forall label stat p metric,
      (label, stat, p, metric) ∈ summary_lines ->
      infix (("| " +:+ label +:+ " | " +:+
              format_f p (stat (bucket_values "_bat" l metric)) +:+ " | " +:+
              match bucket_values "_ac" l metric with
              | [] => "N/A"
              | values => format_f p (stat values)
              end +:+ " |") +:+ nl) doc /\
      format_f p (stat []) = if decide (p = 1%nat) then "0.0" else "0.00".
Proof.
  destruct (render_named _ system_info dashboard_exists (typed_keys_ok l))
    as (brows & arows & Hb & Ha & Hdoc).
  change Report.battery_keys with (map fst canonical_battery) in Hb.
  change Report.ac_keys with (map fst canonical_ac) in Ha.
  rewrite (canonical_rows "_bat" _ _ (typed_keys_ok l) canonical_battery_ok) in Hb.
  rewrite (canonical_rows "_ac" _ _ (typed_keys_ok l) canonical_ac_ok) in Ha.
  injection Hb as <-. injection Ha as <-.
  rewrite placeholder_skipped in Hdoc.
  destruct (report_head_table (default "N/A" system_info)) as [before Hhead].
  destruct (summary_opening
              (pour ∅ (chosen (str_in "_bat") (map (fun kv => (kv.1, as_data kv.2)) l)))
              (pour ∅ (chosen (str_in "_ac") (map (fun kv => (kv.1, as_data kv.2)) l))))
    as [rest Hsum].
  eexists _, before, (rest +:+ (if dashboard_exists then Report.graphs else "")).
  split; [exact Hdoc|]. split_and!.
  - change report_sections with
      ([ "# Desktop Environment Benchmark Report"; "## System Information";
         "## Summary by Phase"; "### Battery Phases" ] ++
       ["### AC Phases"] ++
       ["## Overall Summary"; "## I/O Summary"; "## Raw Data"]).
    apply in_order_app; [apply report_head_sections|]. apply in_order_app_r.
    apply in_order_app; [apply ac_head_sections|]. do 2 apply in_order_app_r.
    apply in_order_app_l, summary_sections.
  - rewrite Hhead, Hsum, ac_head_table. by rewrite !append_assoc.
  - intros label stat p metric Hline. split; [|by eapply summary_zero].
    rewrite <- !bucket_values_get.
    do 5 apply infix_app_r. apply infix_app_l. by apply summary_line.
Qed.

(** The mapping without phases: both tables are empty, the AC table is
    closed by the placeholder row, and the power line of the summary shows a
    zero for the battery and [N/A] for AC. *)
Lemma C6_no_phase_witness :
  exists doc before after,
    Report.render (typed []) None false = Ok doc /\
    doc = before +:+
          text ("### Battery Phases" :: table_heading) +:+
          text ("" :: "### AC Phases" :: table_heading) +:+
          skipped_row +:+
          text [""; "---"; ""; "## Overall Summary"] +:+ after /\
    infix (text ["| Avg Power (W) | 0.00 | N/A |"]) doc.
Proof.
  destruct (C6_render_of_named_phases [] None false)
    as (doc & before & after & Hdoc & _ & Htext & Hlines).
  exists doc, before, after. split; [exact Hdoc|]. split; [exact Htext|].
  exact (proj1 (Hlines "Avg Power (W)" Report.avg 2%nat "power"
                  ltac:(apply list_elem_of_here))).
Defined.

(** Missing battery data gets no placeholder: with no phase at all the
    battery table is followed at once by the AC table and the battery cells
    of the summary show zeros; and a mapping with the key [None], as the
    parser returns it for a record that stops short of the [phase] column,
    makes rendering raise. *)
Lemma C6_placeholder_counterexample :
  (exists doc,
     Report.render [] (Some "KDE") false = Ok doc /\
     str_in (text ("### Battery Phases" :: table_heading) +:+
             text ("" :: "### AC Phases" :: table_heading)) doc = true /\
     str_in (text [ "| Avg Power (W) | 0.00 | N/A |"; "| Peak Power (W) | 0.00 | N/A |";
                    "| Avg CPU (%) | 0.0 | N/A |" ]) doc = true)
  /\ (exists data,
        Report.parse_csv phase_last_table = Ok [(None, data)] /\
        Report.render [(None, data)] (Some "KDE") false = Raise TypeError)
  /\ Report.generate_report phase_last_table (Some "KDE") false = Raise TypeError.
Proof.
  split_and!.
  - eexists. split; [vm_compute; reflexivity|]. split; vm_compute; reflexivity.
  - eexists. split; [vm_compute; reflexivity|]. vm_compute; reflexivity.
  - vm_compute; reflexivity.
Qed.

Lemma all_named (phases : phases_t) (P : string -> Prop) :
  (forall k d, (k, d) ∈ phases -> exists name, k = Some name /\ P name) ->
  exists l, phases = named l /\ Forall (fun kv => P kv.1) l.
Proof.
  induction phases as [|[k d] phases IH]; intros Hall.
  - by exists [].
  - destruct (Hall k d) as (name & -> & HP); [left|].
    destruct IH as (l & -> & Hl); [intros k' d' Hin; apply (Hall k' d'); by right|].
    exists ((name, d) :: l). split; [done|]. by constructor.
Qed.

Lemma filter_none (P : string -> bool) (l : list (string * phase_data)) :
  Forall (fun kv => P kv.1 = false) l -> filter (fun kv => P kv.1) l = [].
Proof.
  induction 1 as [|[name d] l HP _ IH]; [done|].
  rewrite filter_cons. simpl in *. by rewrite HP.
Qed.

Lemma filter_some (P : string -> bool) (l : list (string * phase_data))
    (name : string) (d : phase_data) :
  (name, d) ∈ l -> P name = true -> filter (fun kv => P kv.1) l <> [].
Proof.
  intros Hin HP Hnil.
  assert ((name, d) ∈ filter (fun kv => P kv.1) l) as Hf.
  { apply list_elem_of_filter. split; [simpl; by rewrite HP|done]. }
  rewrite Hnil in Hf. by apply elem_of_nil in Hf.
Qed.

(** C5, as the code has it: when no phase of the parsed file is a battery
    phase and some phase is an AC phase, the battery table has its heading
    and nothing else, no placeholder row either, and the AC table holds one
    line for each canonical AC phase of the file, in table order, followed at
    once by the overall summary. *)
Theorem C5_ac_only_report (t : table) (phases : phases_t) (system_info : option string)
    (dashboard_exists : bool) :
  Report.parse_csv t = Ok phases ->
  (forall k d, (k, d) ∈ phases -> exists name, k = Some name /\ str_in "_bat" name = false) ->
  (exists name d, (Some name, d) ∈ phases /\ str_in "_ac" name = true) ->
  exists doc before after,
    Report.generate_report t system_info dashboard_exists = Ok doc /\
    doc = before +:+
          text ("### Battery Phases" :: table_heading) +:+
          text ("" :: "### AC Phases" :: table_heading) +:+
          phase_lines phases canonical_ac +:+
          text [""; "---"; ""; "## Overall Summary"] +:+ after.
Proof.
  intros Hparse Hnames (name & d & Hin & Hac).
  pose proof (parse_rows_keys_ok _ _ _ Hparse) as Hok.
  destruct (all_named phases _ Hnames) as (l & -> & Hl).
  destruct (render_named l system_info dashboard_exists Hok)
    as (brows & arows & Hb & Ha & Hdoc).
  rewrite (filter_none (str_in "_bat") l Hl) in Hb. injection Hb as <-.
  change Report.ac_keys with (map fst canonical_ac) in Ha.
  rewrite (canonical_rows "_ac" _ _ Hok canonical_ac_ok) in Ha. injection Ha as <-.
  assert (filter (fun kv => str_in "_ac" kv.1) l <> []) as Hsome.
  { apply (filter_some _ l name d); [|done].
    unfold named in Hin. apply list_elem_of_fmap in Hin as ([n' d'] & [= -> ->] & Hin).
    done. }
  destruct (report_head_table (default "N/A" system_info)) as [before Hhead].
  destruct (summary_opening (pour ∅ (chosen (str_in "_bat") l))
                            (pour ∅ (chosen (str_in "_ac") l))) as [rest Hsum].
  eexists _, before, (rest +:+ (if dashboard_exists then Report.graphs else "")).
  split.
  - unfold Report.generate_report. rewrite Hparse, bind_ret_l. exact Hdoc.
  - rewrite Hhead, Hsum, ac_head_table.
    destruct (filter (fun kv => str_in "_ac" kv.1) l) as [|kv sel]; [done|].
    simpl named. cbv iota. by rewrite !append_assoc.
Qed.

Lemma C5_ac_only_witness :
  exists doc before after,
    Report.generate_report ac_only_table (Some "KDE") false = Ok doc /\
    doc = before +:+
          text ("### Battery Phases" :: table_heading) +:+
          text ("" :: "### AC Phases" :: table_heading) +:+
          text ["| Light (AC) | 12.00 | 12.00 | 50.0 | 60.0 | 30.0 |"] +:+
          text [""; "---"; ""; "## Overall Summary"] +:+ after.
Proof.
  apply (C5_ac_only_report ac_only_table
           [(Some "light_ac", as_data
              {| power_values := [12%float]; cpu_values := [50%float];
                 temp_values := [60%float]; mem_values := [30%float];
                 load_values := [1%float]; disk_read_values := [2%float];
                 disk_write_values := [3%float]; net_rx_values := [4%float];
                 net_tx_values := [5%float] |})]
           (Some "KDE") false).
  - vm_compute. reflexivity.
  - intros k d [= -> ->]%list_elem_of_singleton. exists "light_ac". by vm_compute.
  - exists "light_ac". eexists. split; [left|]. by vm_compute.
Defined.

(** A file with AC phases only: the placeholder row is nowhere in the
    report, so the battery table does not have it. *)
Lemma C5_no_placeholder_counterexample :
  exists doc,
    Report.generate_report ac_only_table (Some "KDE") false = Ok doc /\
    str_in "### Battery Phases" doc = true /\
    str_in "| Light (AC) | 12.00 | 12.00 | 50.0 | 60.0 | 30.0 |" doc = true /\
    str_in "| *(Skipped - validation mode)* |" doc = false.
Proof.
  eexists. split; [vm_compute; reflexivity|].
  split; [vm_compute; reflexivity|]. split; vm_compute; reflexivity.
Qed.

(** ** Rows as long as the header *)





Section full_rows.
Variable fields : list (string * string).
Implicit Types (phases : phases_t) (row : row_dict) (phase : option string).




End full_rows.



(** ** What the parser keeps of a file *)

Lemma default_factory_empty (fields : list (string * string)) (metric : string) :
  default [] (dict_get metric (Parser.default_factory fields)) = [].
Proof.
  unfold Parser.default_factory. induction fields as [|f fs IH]; simpl; [done|].
  case_decide; [done|apply IH].
Qed.

Section parser_output.
Variable fields : list (string * string).
Hypothesis fields_nodup : NoDup (map fst fields).
Implicit Types (phases : phases_t) (row : row_dict) (phase q : option string).


Lemma sequence_touch q phases phase metric :
  sequence (Parser.touch fields q phases) phase metric = sequence phases phase metric.
Proof.
  unfold sequence, Parser.touch. destruct (dict_get q phases) eqn:Hq; [done|].
  rewrite dict_get_app. destruct (dict_get phase phases) eqn:Hp; [done|].
  simpl. case_decide; [|done]. simpl. apply default_factory_empty.
Qed.

Lemma sequence_update q phases phase (m metric : string) (v : float) :
  is_Some (dict_get q phases ≫= dict_get m) ->
  sequence (update (update (fun l => l ++ [v]) m) q phases) phase metric =
  sequence phases phase metric ++
  (if decide (q = phase /\ m = metric) then [v] else []).
Proof.
  intros [l Hl]. unfold sequence. rewrite dict_get_update.
  destruct (decide (q = phase)) as [->|Hq].
  - destruct (dict_get phase phases) as [d|]; [|done]. simpl in *.
    rewrite dict_get_update. destruct (decide (m = metric)) as [->|Hm].
    + rewrite Hl. simpl. by rewrite decide_True.
    + rewrite decide_False by tauto. by rewrite app_nil_r.
  - rewrite decide_False by tauto. by rewrite app_nil_r.
Qed.

Lemma touch_metric q phases (m : string) :
  keys_ok fields phases -> m ∈ map fst fields ->
  is_Some (dict_get q (Parser.touch fields q phases) ≫= dict_get m).
Proof.
  intros Hok Hm. destruct (touch_get fields q phases) as [d Hd]. rewrite Hd. simpl.
  apply dict_get_is_Some. by rewrite (touch_keys_ok fields q phases Hok _ _ Hd).
Qed.

Lemma admitted_step_keys_ok q phases (m : string) (v : float) :
  keys_ok fields phases ->
  keys_ok fields (update (update (fun l => l ++ [v]) m) q (Parser.touch fields q phases)).
Proof.
  intros Hok k d. rewrite dict_get_update. case_decide.
  - destruct (dict_get k _) eqn:E; simpl; [|done]. intros [= <-].
    rewrite update_keys. by eapply touch_keys_ok.
  - by apply touch_keys_ok.
Qed.

(** The values [fvs] pairs with the metric key [metric]. *)
Lemma sequence_admitted q (fvs : list ((string * string) * float)) phases phase metric :
  keys_ok fields phases -> Forall (fun fv => fv.1 ∈ fields) fvs ->
  sequence (admitted fields q fvs phases) phase metric =
  sequence phases phase metric ++
  (if decide (q = phase)
   then omap (fun fv => if decide (fv.1.1 = metric) then Some fv.2 else None) fvs
   else []).
Proof.
  intros Hok Hfvs. revert phases Hok.
  induction Hfvs as [|[f v] fvs Hf _ IH]; intros phases Hok; simpl.
  - case_decide; by rewrite app_nil_r.
  - unfold admitted in *. simpl. rewrite IH by by apply admitted_step_keys_ok.
    rewrite sequence_update, sequence_touch.
    2:{ apply touch_metric; [done|]. apply list_elem_of_fmap. eauto. }
    rewrite <- app_assoc. f_equal.
    destruct (decide (q = phase)) as [->|]; [|by rewrite decide_False by tauto].
    destruct (decide (f.1 = metric)) as [->|].
    + by rewrite decide_True.
    + by rewrite decide_False by tauto.
Qed.

Lemma converts_cell_value row (f : string * string) (v : float) :
  converts row f v <-> cell_value row f.2 = Some v.
Proof.
  unfold converts, cell_value. split.
  - intros (s & -> & Hs). simpl. by rewrite Hs.
  - destruct (row !! f.2) as [[s|]|]; simpl; [|done..].
    destruct (float_of_str s) eqn:Hs; [|done]. intros [= <-]. eauto.
Qed.

Lemma all_convert_values row :
  all_convert fields row = true -> exists vs, Forall2 (converts row) fields vs.
Proof.
  intros Hall. apply Forall2_choice. intros f Hf.
  unfold all_convert in Hall. rewrite forallb_forall in Hall.
  specialize (Hall f (proj1 (list_elem_of_In _ _) Hf)).
  apply bool_decide_eq_true in Hall as [v Hv]. exists v. by apply converts_cell_value.
Qed.

Lemma no_value_of_key (fs : list (string * string)) (vs : list float) (m : string) :
  m ∉ map fst fs ->
  omap (fun fv : (string * string) * float =>
          if decide (fv.1.1 = m) then Some fv.2 else None) (zip fs vs) = [].
Proof.
  revert vs. induction fs as [|g fs IH]; intros vs Hm; [done|].
  destruct vs as [|w vs]; [done|]. simpl.
  apply not_elem_of_cons in Hm as [Hg Hm]. rewrite decide_False by done. by apply IH.
Qed.

(** Among the values of a converting row, the one of the field [f]. *)
Lemma value_of_field row (fs : list (string * string)) (vs : list float)
    (f : string * string) :
  NoDup (map fst fs) -> f ∈ fs -> Forall2 (converts row) fs vs ->
  omap (fun fv : (string * string) * float =>
          if decide (fv.1.1 = f.1) then Some fv.2 else None) (zip fs vs)
  = option_list (cell_value row f.2).
Proof.
  intros Hnodup Hf Hall. revert Hnodup Hf.
  induction Hall as [|f' v fs vs Hconv _ IH]; intros Hnodup Hf; simpl.
  - by apply elem_of_nil in Hf.
  - apply NoDup_cons in Hnodup as [Hfresh Hnodup].
    destruct (decide (f'.1 = f.1)) as [Heq|Hne].
    + assert (f = f') as ->.
      { apply elem_of_cons in Hf as [->|Hf]; [done|]. exfalso. apply Hfresh.
        rewrite Heq. apply list_elem_of_fmap. eauto. }
      apply converts_cell_value in Hconv. rewrite Hconv. simpl. f_equal.
      by apply no_value_of_key.
    + apply IH; [done|]. apply elem_of_cons in Hf as [->|Hf]; done.
Qed.

Lemma loop_body_first_fails row q phases :
  row !! "phase" = Some q -> first_fails fields row ->
  Parser.loop_body fields phases row = Ok (Parser.touch fields q phases).
Proof.
  intros Hph Hfail. unfold Parser.loop_body. rewrite Hph.
  destruct fields as [|f fs]; [done|]. simpl. unfold Parser.append_stmt.
  destruct (dict_get q _ ≫= dict_get f.1); [|done].
  destruct Hfail as [->|(s & -> & Hs)]; [done|]. simpl. by rewrite Hs.
Qed.

Lemma first_fails_not_all row : first_fails fields row -> all_convert fields row = false.
Proof.
  unfold first_fails, all_convert, cell_value. destruct fields as [|f fs]; [done|].
  simpl. intros [->|(s & -> & Hs)]; simpl; [done|]. by rewrite Hs.
Qed.

(** One iteration on a row that converts in full or fails at its first
    metric cell. *)
Lemma loop_body_clean row q phases :
  keys_ok fields phases -> row !! "phase" = Some q ->
  all_convert fields row = true \/ first_fails fields row ->
  exists phases',
    Parser.loop_body fields phases row = Ok phases' /\
    forall phase f, f ∈ fields ->
      sequence phases' phase f.1 =
      sequence phases phase f.1 ++ column_of fields [row] phase f.2.
Proof.
  intros Hok Hph [Hall|Hfail].
  - destruct (all_convert_values row Hall) as [vs Hvs].
    eexists. split; [by apply loop_body_valid|].
    intros phase f Hf. rewrite sequence_admitted; [|done|].
    2:{ apply Forall_forall. intros [f' v] Hin. by apply elem_of_zip_l in Hin. }
    f_equal. unfold column_of. simpl. rewrite Hall, Hph. simpl.
    destruct (decide (q = phase)) as [->|Hne].
    + rewrite bool_decide_eq_true_2 by done.
      rewrite (value_of_field row fields vs f fields_nodup Hf Hvs).
      by destruct (cell_value row f.2).
    + rewrite bool_decide_eq_false_2 by congruence. done.
  - eexists. split; [by apply loop_body_first_fails|].
    intros phase f Hf. rewrite sequence_touch. unfold column_of. simpl.
    rewrite (first_fails_not_all row Hfail). simpl. by rewrite app_nil_r.
Qed.

Lemma column_of_app (rows rows' : list row_dict) phase (column : string) :
  column_of fields (rows ++ rows') phase column =
  column_of fields rows phase column ++ column_of fields rows' phase column.
Proof. unfold column_of. by rewrite omap_app. Qed.

Lemma parse_rows_clean (rows : list row_dict) :
  Forall (fun row => is_Some (row !! "phase") /\
                     (all_convert fields row = true \/ first_fails fields row)) rows ->
  exists phases,
    Parser.parse_rows fields rows = Ok phases /\
    forall phase f, f ∈ fields ->
      sequence phases phase f.1 = column_of fields rows phase f.2.
Proof.
  intros Hrows. unfold Parser.parse_rows.
  cut (forall phases0, keys_ok fields phases0 ->
         exists phases, for_each (Parser.loop_body fields) rows phases0 = Ok phases /\
           forall phase f, f ∈ fields ->
             sequence phases phase f.1 =
             sequence phases0 phase f.1 ++ column_of fields rows phase f.2).
  { intros Hgen. destruct (Hgen []) as (phases & Hrun & Hseq); [by intros ??|].
    exists phases. split; [done|]. intros phase f Hf. by rewrite (Hseq phase f Hf). }
  induction Hrows as [|row rows [[q Hph] Hclean] _ IH]; intros phases0 Hok; simpl.
  - exists phases0. split; [done|]. intros. unfold column_of. simpl. by rewrite app_nil_r.
  - destruct (loop_body_clean row q phases0 Hok Hph Hclean) as (ps & Hbody & Hstep).
    rewrite Hbody. destruct (IH ps) as (phases & Hrun & Hseq).
    { by eapply loop_body_keys_ok. }
    exists phases. split; [done|]. intros phase f Hf.
    rewrite (Hseq phase f Hf), (Hstep phase f Hf), <- app_assoc. f_equal.
    by rewrite <- column_of_app.
Qed.
End parser_output.

Lemma report_fields_nodup : NoDup (map fst Report.fields).
Proof. apply (bool_decide_unpack _). by vm_compute. Qed.

Lemma compare_fields_nodup : NoDup (map fst Compare.fields).
Proof. apply (bool_decide_unpack _). by vm_compute. Qed.

(** X2: when every row of a file has a phase cell and either converts in
    all its metric cells or fails at the first one, the parser returns, and
    the sequence of each phase and metric is the column of that metric over
    the fully converting rows of the phase, in file order. *)
Theorem parse_csv_groups_rows_by_phase (fields : list (string * string)) (t : table) :
  fields = Report.fields \/ fields = Compare.fields ->
  Forall (fun row => is_Some (row !! "phase") /\
                     (all_convert fields row = true \/ first_fails fields row))
         (DictReader t) ->
  exists phases,
    Parser.parse_csv fields t = Ok phases /\
    forall phase f, f ∈ fields ->
      sequence phases phase f.1 = column_of fields (DictReader t) phase f.2.
Proof.
  intros Hfields Hrows. apply parse_rows_clean; [|done].
  destruct Hfields as [->| ->]; [apply report_fields_nodup|apply compare_fields_nodup].
Qed.

Lemma parse_csv_groups_rows_witness :
  exists phases,
    Report.parse_csv [header; row_power_10; row_bad_power; row_power_20] = Ok phases /\
    forall phase f, f ∈ Report.fields ->
      sequence phases phase f.1 =
      column_of Report.fields
        (DictReader [header; row_power_10; row_bad_power; row_power_20]) phase f.2.
Proof.
  apply (parse_csv_groups_rows_by_phase Report.fields); [by left|].
  change (DictReader [header; row_power_10; row_bad_power; row_power_20])
    with [ DictReader_row header row_power_10; DictReader_row header row_bad_power;
           DictReader_row header row_power_20 ].
  repeat apply Forall_cons_2; [| |  |apply Forall_nil_2]; (split; [eexists; by vm_compute|]).
  - left. by vm_compute.
  - right. right. exists "n/a". split; by vm_compute.
  - left. by vm_compute.
Defined.

(** X19: in a file every row of which converts in all its metric cells or
    fails at the first one, when the converting rows of phase [light_bat]
    have the power values 10 and 20, in either order, the mean power of
    that phase is 15 and its peak power 20, whatever other rows the file
    holds. *)
Theorem light_bat_mean_15_peak_20 (t : table) :
  Forall (fun row => is_Some (row !! "phase") /\
                     (all_convert Report.fields row = true \/
                      first_fails Report.fields row))
         (DictReader t) ->
  column_of Report.fields (DictReader t) (Some "light_bat") "power_w"
    = [10%float; 20%float] \/
  column_of Report.fields (DictReader t) (Some "light_bat") "power_w"
    = [20%float; 10%float] ->
  exists phases,
    Report.parse_csv t = Ok phases /\
    Report.avg (sequence phases (Some "light_bat") "power") = 15%float /\
    Report.peak (sequence phases (Some "light_bat") "power") = 20%float.
Proof.
  intros Hrows Hpower.
  destruct (parse_rows_clean Report.fields report_fields_nodup _ Hrows)
    as (phases & Hparse & Hseq).
  exists phases. split; [exact Hparse|].
  pose proof (Hseq (Some "light_bat") ("power", "power_w") ltac:(left)) as Hcol.
  simpl in Hcol. rewrite Hcol.
  destruct Hpower as [-> | ->]; split; by vm_compute.
Qed.

Lemma light_bat_mean_witness :
  exists phases,
    Report.parse_csv [header; row_power_10; row_bad_power; row_power_20] = Ok phases /\
    Report.avg (sequence phases (Some "light_bat") "power") = 15%float /\
    Report.peak (sequence phases (Some "light_bat") "power") = 20%float.
Proof.
  apply light_bat_mean_15_peak_20; [|left; by vm_compute].
  change (DictReader [header; row_power_10; row_bad_power; row_power_20])
    with [ DictReader_row header row_power_10; DictReader_row header row_bad_power;
           DictReader_row header row_power_20 ].
  repeat apply Forall_cons_2; [| |  |apply Forall_nil_2]; (split; [eexists; by vm_compute|]).
  - left. by vm_compute.
  - right. right. exists "n/a". split; by vm_compute.
  - left. by vm_compute.
Defined.

(** ** The phases of a file *)

Section phase_keys.
Variable fields : list (string * string).
Implicit Types (phases : phases_t) (row : row_dict) (q : option string).

Lemma dict_get_None {V : Type} (k : option string) (d : list (option string * V)) :
  dict_get k d = None <-> k ∉ map fst d.
Proof.
  induction d as [|[k' v] d IH]; simpl.
  - split; [intros _ Hin; by apply elem_of_nil in Hin|done].
  - rewrite not_elem_of_cons. case_decide; [split; [done|intros [? _]; congruence]|].
    rewrite IH. split; [intros; split; congruence|tauto].
Qed.

Lemma touch_keys q phases :
  map fst (Parser.touch fields q phases) =
  if decide (q ∈ map fst phases) then map fst phases else map fst phases ++ [q].
Proof.
  unfold Parser.touch. destruct (dict_get q phases) eqn:Hq.
  - rewrite decide_True; [done|]. destruct (decide (q ∈ map fst phases)); [done|].
    apply dict_get_None in n. congruence.
  - apply dict_get_None in Hq. rewrite decide_False by done. by rewrite map_app.
Qed.

Lemma touch_twice q phases :
  Parser.touch fields q (Parser.touch fields q phases) = Parser.touch fields q phases.
Proof.
  unfold Parser.touch at 1. by destruct (touch_get fields q phases) as [d ->].
Qed.

Lemma try_body_keys row q stmts phases :
  stmts <> [] ->
  map fst (Parser.try_body fields row q stmts phases).2 =
  map fst (Parser.touch fields q phases).
Proof.
  intros Hne.
  cut (forall stmts ps, map fst ps = map fst (Parser.touch fields q ps) ->
         map fst (Parser.try_body fields row q stmts ps).2 = map fst ps).
  { intros Hgen. destruct stmts as [|f stmts]; [done|]. simpl.
    assert (map fst (Parser.append_stmt fields row q phases f).2 =
            map fst (Parser.touch fields q phases)) as Hstep.
    { destruct (append_stmt_state fields row q phases f) as [->|[v ->]];
        by rewrite ?update_keys. }
    assert (map fst (Parser.append_stmt fields row q phases f).2 =
            map fst (Parser.touch fields q (Parser.append_stmt fields row q phases f).2))
      as Hfix.
    { destruct (append_stmt_state fields row q phases f) as [->|[v ->]].
      - by rewrite touch_twice.
      - rewrite update_keys, !touch_keys, update_keys, touch_keys.
        repeat case_decide; try done; set_solver. }
    destruct (Parser.append_stmt fields row q phases f) as [[[]|e] ps]; simpl in *;
      [|done]. by rewrite Hgen. }
  clear. intros stmts. induction stmts as [|f stmts IH]; intros ps Hps; simpl; [done|].
  assert ((Parser.append_stmt fields row q ps f).2 = Parser.touch fields q ps \/
          exists v, (Parser.append_stmt fields row q ps f).2 =
            update (update (fun l => l ++ [v]) f.1) q (Parser.touch fields q ps)) as Hst
    by apply append_stmt_state.
  assert (map fst (Parser.append_stmt fields row q ps f).2 = map fst ps) as Hkeys.
  { destruct Hst as [->|[v ->]]; by rewrite ?update_keys. }
  destruct (Parser.append_stmt fields row q ps f) as [[[]|e] ps']; simpl in *; [|done].
  rewrite IH; [done|]. rewrite !touch_keys, Hkeys. rewrite touch_keys in Hps. done.
Qed.

Lemma parse_rows_keys rows phases0 phases :
  fields <> [] ->
  for_each (Parser.loop_body fields) rows phases0 = Ok phases ->
  map fst phases =
  fold_left (fun seen k => if decide (k ∈ seen) then seen else seen ++ [k])
            (omap (fun row => row !! "phase") rows) (map fst phases0).
Proof.
  intros Hne. revert phases0. induction rows as [|row rows IH]; intros phases0; simpl.
  - by intros [= ->].
  - destruct (Parser.loop_body fields phases0 row) as [ps|] eqn:E; [|done].
    apply loop_body_Ok in E as (q & Hq & ->). rewrite Hq. simpl.
    intros Hrun. rewrite (IH _ Hrun), try_body_keys, touch_keys by done. done.
Qed.

Lemma first_seen_nodup {K : Type} `{EqDecision K} (ks seen : list K) :
  NoDup seen ->
  NoDup (fold_left (fun seen k => if decide (k ∈ seen) then seen else seen ++ [k]) ks seen).
Proof.
  revert seen. induction ks as [|k ks IH]; intros seen Hseen; simpl; [done|].
  apply IH. case_decide; [done|]. apply NoDup_app. split_and!; [done| |apply NoDup_singleton].
  intros x Hx ->%list_elem_of_singleton. done.
Qed.
End phase_keys.

(** X3: the keys of the mapping the parser returns are the phase cells of
    the rows read, each once, in order of first appearance. *)
Theorem parse_csv_phases_in_order_of_appearance (fields : list (string * string))
    (t : table) (phases : phases_t) :
  fields = Report.fields \/ fields = Compare.fields ->
  Parser.parse_csv fields t = Ok phases ->
  map fst phases = first_seen (omap (fun row => row !! "phase") (DictReader t)) /\
  NoDup (map fst phases).
Proof.
  intros Hfields Hparse.
  assert (fields <> []) as Hne by (by destruct Hfields as [->| ->]).
  pose proof (parse_rows_keys fields _ _ _ Hne Hparse) as Hkeys.
  split; [done|]. rewrite Hkeys. apply first_seen_nodup. constructor.
Qed.

Lemma parse_csv_phases_witness :
  map fst [ (Some "light_bat", as_data
              {| power_values := [10%float; 20%float]; cpu_values := [50%float; 50%float];
                 temp_values := [60%float; 60%float]; mem_values := [30%float; 30%float];
                 load_values := [1%float; 1%float];
                 disk_read_values := [2%float; 2%float];
                 disk_write_values := [3%float; 3%float];
                 net_rx_values := [4%float; 4%float];
                 net_tx_values := [5%float; 5%float] |});
            (Some "idle_bat", no_values) ]
  = first_seen (omap (fun row => row !! "phase")
                  (DictReader [header; row_power_10; row_bad_power; row_power_20])) /\
  NoDup (map fst [ (Some "light_bat", as_data
              {| power_values := [10%float; 20%float]; cpu_values := [50%float; 50%float];
                 temp_values := [60%float; 60%float]; mem_values := [30%float; 30%float];
                 load_values := [1%float; 1%float];
                 disk_read_values := [2%float; 2%float];
                 disk_write_values := [3%float; 3%float];
                 net_rx_values := [4%float; 4%float];
                 net_tx_values := [5%float; 5%float] |});
            (Some "idle_bat", no_values) ]).
Proof.
  apply (parse_csv_phases_in_order_of_appearance Report.fields
           [header; row_power_10; row_bad_power; row_power_20]); [by left|].
  by vm_compute.
Defined.

(** ** Further properties of the report *)


(** X4: a phase whose name has neither [_bat] nor [_ac] leaves the whole
    report as it is without that phase. *)
Theorem render_ignores_phases_of_no_bucket (pre post : list (string * phase_data))
    (name : string) (data : phase_data) (system_info : option string)
    (dashboard_exists : bool) :
  str_in "_bat" name = false -> str_in "_ac" name = false ->
  Report.render (named (pre ++ (name, data) :: post)) system_info dashboard_exists =
  Report.render (named (pre ++ post)) system_info dashboard_exists.
Proof.
  intros Hbat Hac. unfold Report.render. rewrite !select_named, !filter_app, !filter_cons.
  simpl. by rewrite Hbat, Hac.
Qed.

Lemma render_ignores_idle_witness :
  Report.render (named ([("light_bat", no_values)] ++ ("idle", one_value) :: [])) None false =
  Report.render (named ([("light_bat", no_values)] ++ [])) None false.
Proof. by apply render_ignores_phases_of_no_bucket. Defined.




Lemma summary_battery_zero (bat ac : bucket) (label : string)
    (stat : list float -> float) (p : nat) (metric : string) :
  (label, stat, p, metric) ∈ summary_lines ->
  bucket_get bat metric = [] ->
  infix (("| " +:+ label +:+ " | " +:+ format_f p 0%float +:+ " | " +:+
          Report.ac_cell stat p ac metric +:+ " |") +:+ nl)
        (Report.summary bat ac).
Proof.
  intros Hline Hempty. unfold summary_lines in Hline.
  repeat (apply elem_of_cons in Hline as [[= -> -> -> ->]|Hline];
          [ unfold Report.summary, Report.battery_cell; rewrite Hempty;
            apply infix_text; find_line | ]).
  by apply elem_of_nil in Hline.
Qed.

(** X6: the battery column of the summary tables never shows [N/A]: where
    the battery bucket has no value for a metric, the cell is the formatted
    number zero ([0.00] or [0.0]), beside whatever the AC cell shows. *)
Theorem battery_column_shows_zero (l : list (string * Phase)) (system_info : option string)
    (dashboard_exists : bool) (bat ac : bucket) (label : string)
    (stat : list float -> float) (p : nat) (metric : string) :
  report_bucket "_bat" (typed l) = Ok bat ->
  report_bucket "_ac" (typed l) = Ok ac ->
  (label, stat, p, metric) ∈ summary_lines ->
  bucket_get bat metric = [] ->
  exists doc,
    Report.render (typed l) system_info dashboard_exists = Ok doc /\
    format_f p 0%float = (if decide (p = 1%nat) then "0.0" else "0.00") /\
    infix (("| " +:+ label +:+ " | " +:+ format_f p 0%float +:+ " | " +:+
            Report.ac_cell stat p ac metric +:+ " |") +:+ nl) doc.
Proof.
  intros Hbat Hac Hline Hempty.
  destruct (render_named _ system_info dashboard_exists (typed_keys_ok l))
    as (brows & arows & _ & _ & Hdoc).
  eexists. split; [exact Hdoc|]. split.
  - unfold summary_lines in Hline.
    repeat (apply elem_of_cons in Hline as [[= -> -> -> ->]|Hline]; [by vm_compute|]).
    by apply elem_of_nil in Hline.
  - unfold typed in Hbat, Hac. rewrite report_bucket_named in Hbat, Hac.
    injection Hbat as <-. injection Hac as <-.
    do 5 apply infix_app_r. apply infix_app_l. by apply summary_battery_zero.
Qed.

Lemma battery_column_zero_witness :
  exists doc,
    Report.render (typed []) None false = Ok doc /\
    format_f 2 0%float = "0.00" /\
    infix (("| " +:+ "Avg Power (W)" +:+ " | " +:+ format_f 2 0%float +:+ " | " +:+
            Report.ac_cell Report.avg 2 ∅ "power" +:+ " |") +:+ nl) doc.
Proof.
  apply (battery_column_shows_zero [] None false ∅ ∅ "Avg Power (W)" Report.avg 2 "power");
    [done|done|left|done].
Defined.

(** ** generate_report on a whole file *)




(** ** Further properties of the run information *)

Lemma for_each_app {A S : Type} (body : S -> A -> result S) (l1 l2 : list A) (s : S) :
  for_each body (l1 ++ l2) s = for_each body l1 s ≫= for_each body l2.
Proof.
  revert s. induction l1 as [|x l1 IH]; intros s; simpl; [done|].
  destruct (body s x); [apply IH|done].
Qed.

Lemma read_line_keeps_de (info : Compare.run_info) (line : string) :
  startswith "Desktop:" line = false ->
  exists info', Compare.read_line info line = Ok info' /\
                Compare.de info' = Compare.de info.
Proof.
  intros Hd. destruct (startswith "Run Type:" line) eqn:Hr.
  - apply prefix_app in Hr as [rest ->]. rewrite read_line_run_type. by eexists.
  - rewrite read_line_other by done. by eexists.
Qed.

Lemma read_line_keeps_run_type (info : Compare.run_info) (line : string) :
  startswith "Run Type:" line = false ->
  exists info', Compare.read_line info line = Ok info' /\
                Compare.run_type info' = Compare.run_type info.
Proof.
  intros Hr. destruct (startswith "Desktop:" line) eqn:Hd.
  - apply prefix_app in Hd as [rest ->]. rewrite read_line_desktop. by eexists.
  - rewrite read_line_other by done. by eexists.
Qed.

Lemma read_lines_keep_de (lines : list string) (info : Compare.run_info) :
  Forall (fun line => startswith "Desktop:" line = false) lines ->
  exists info', for_each Compare.read_line lines info = Ok info' /\
                Compare.de info' = Compare.de info.
Proof.
  intros Hlines. revert info. induction Hlines as [|line lines Hline _ IH]; intros info.
  - by exists info.
  - simpl. destruct (read_line_keeps_de info line Hline) as (info1 & -> & <-). apply IH.
Qed.

Lemma read_lines_keep_run_type (lines : list string) (info : Compare.run_info) :
  Forall (fun line => startswith "Run Type:" line = false) lines ->
  exists info', for_each Compare.read_line lines info = Ok info' /\
                Compare.run_type info' = Compare.run_type info.
Proof.
  intros Hlines. revert info. induction Hlines as [|line lines Hline _ IH]; intros info.
  - by exists info.
  - simpl. destruct (read_line_keeps_run_type info line Hline) as (info1 & -> & <-).
    apply IH.
Qed.

Lemma read_lines_returns (lines : list string) (info : Compare.run_info) :
  returns (for_each Compare.read_line lines info).
Proof.
  revert info. induction lines as [|line lines IH]; intros info; simpl; [by eexists|].
  destruct (read_line_returns info line) as [info' ->]. apply IH.
Qed.

(** X8: the desktop name is the value of the last line that begins with
    [Desktop:], and the run type the value of the last line that begins with
    [Run Type:]. *)
Theorem get_run_info_last_line_wins (content : string) (before after : list string)
    (rest : string) :
  (split "010" content = before ++ ("Desktop:" +:+ rest) :: after ->
   Forall (fun line => startswith "Desktop:" line = false) after ->
   exists info, Compare.get_run_info (Some content) = Ok info /\
                Compare.de info = strip (before_colon rest)) /\
  (split "010" content = before ++ ("Run Type:" +:+ rest) :: after ->
   Forall (fun line => startswith "Run Type:" line = false) after ->
   exists info, Compare.get_run_info (Some content) = Ok info /\
                Compare.run_type info = strip (before_colon rest)).
Proof.
  split; intros Hsplit Hafter; unfold Compare.get_run_info; rewrite Hsplit, for_each_app;
    (destruct (read_lines_returns before
                 {| Compare.de := "Unknown"; Compare.run_type := "unknown" |})
       as [info0 ->]); rewrite bind_ret_l; simpl.
  - rewrite read_line_desktop.
    match goal with
    | |- context [for_each Compare.read_line after ?i] =>
        destruct (read_lines_keep_de after i Hafter) as (info & -> & Hde)
    end.
    by exists info.
  - rewrite read_line_run_type.
    match goal with
    | |- context [for_each Compare.read_line after ?i] =>
        destruct (read_lines_keep_run_type after i Hafter) as (info & -> & Hrt)
    end.
    by exists info.
Qed.

Lemma get_run_info_last_line_witness :
  exists info,
    Compare.get_run_info (Some (text ["Desktop: KDE"; "Desktop: GNOME"; "Kernel: 6.1"]))
    = Ok info /\
    Compare.de info = strip (before_colon " GNOME").
Proof.
  apply (proj1 (get_run_info_last_line_wins _ ["Desktop: KDE"] ["Kernel: 6.1"; ""] " GNOME")).
  - by vm_compute.
  - repeat constructor.
Defined.

(** X9: without the file, or with no line that begins with [Desktop:]
    (resp. [Run Type:]), the desktop name is [Unknown] (resp. the run type
    [unknown]). *)
Theorem get_run_info_defaults (content : string) :
  Compare.get_run_info None =
    Ok {| Compare.de := "Unknown"; Compare.run_type := "unknown" |} /\
  (Forall (fun line => startswith "Desktop:" line = false) (split "010" content) ->
   exists info, Compare.get_run_info (Some content) = Ok info /\
                Compare.de info = "Unknown") /\
  (Forall (fun line => startswith "Run Type:" line = false) (split "010" content) ->
   exists info, Compare.get_run_info (Some content) = Ok info /\
                Compare.run_type info = "unknown").
Proof.
  split; [done|]. split; intros Hlines; unfold Compare.get_run_info.
  - destruct (read_lines_keep_de _ {| Compare.de := "Unknown";
                                       Compare.run_type := "unknown" |} Hlines)
      as (info & -> & Hde).
    by exists info.
  - destruct (read_lines_keep_run_type _ {| Compare.de := "Unknown";
                                             Compare.run_type := "unknown" |} Hlines)
      as (info & -> & Hrt).
    by exists info.
Qed.

Lemma get_run_info_defaults_witness :
  exists info, Compare.get_run_info (Some "Run Type: ac") = Ok info /\
               Compare.de info = "Unknown".
Proof.
  apply (proj1 (proj2 (get_run_info_defaults "Run Type: ac"))).
  repeat constructor.
Defined.

(** ** Further properties of the aggregation *)



Lemma aggregate_from (phases : phases_t) (targets : bucket * bucket) :
  returns (for_each Compare.aggregate_step phases targets) <->
  Forall (fun kv => is_Some kv.1) phases.
Proof.
  revert targets. induction phases as [|[k d] phases IH]; intros targets; simpl.
  - split; [constructor|by eexists].
  - destruct k as [name|]; simpl.
    + rewrite IH. split; [by constructor|by inversion 1].
    + split; [by intros [? ?]|]. inversion 1 as [|?? [? ?]]. done.
Qed.

(** X11: [aggregate_by_power_mode] returns exactly when every phase key is
    a name; a [None] key, which a row shorter than the header can leave in
    the mapping, makes it raise. *)
Theorem aggregate_returns_iff_named (phases : phases_t) :
  returns (Compare.aggregate_by_power_mode phases) <->
  Forall (fun kv => is_Some kv.1) phases.
Proof. apply aggregate_from. Qed.

Lemma aggregate_returns_witness :
  returns (Compare.aggregate_by_power_mode (named [("light_bat", one_value)])) /\
  ~ returns (Compare.aggregate_by_power_mode [(None, one_value)]).
Proof.
  split.
  - apply (proj2 (aggregate_returns_iff_named _)). repeat constructor. by eexists.
  - intros H. apply (proj1 (aggregate_returns_iff_named _)) in H.
    inversion H as [|?? [? ?]]. done.
Defined.

(** ** Further properties of the charts *)

Section setitem_facts.
Context {V : Type}.
Implicit Types (d : list (string * V)) (k : string).


Lemma setitem_keys k (v : V) d :
  map fst (setitem k v d) =
  if decide (k ∈ map fst d) then map fst d else map fst d ++ [k].
Proof.
  induction d as [|[k0 v0] d IH]; simpl; [done|].
  destruct (decide (k0 = k)) as [->|Hne]; simpl.
  - rewrite decide_True; [done|left].
  - rewrite IH. destruct (decide (k ∈ map fst d)) as [Hin|Hout].
    + rewrite decide_True; [done|by right].
    + rewrite decide_False; [done|]. intros [?|?]%elem_of_cons; congruence.
Qed.

Lemma setitem_nodup k (v : V) d : NoDup (map fst d) -> NoDup (map fst (setitem k v d)).
Proof.
  intros Hd. rewrite setitem_keys. case_decide; [done|].
  apply NoDup_app. split_and!; [done| |apply NoDup_singleton].
  by intros x Hx ->%list_elem_of_singleton.
Qed.

Lemma setitem_length k (v : V) d :
  (length d <= length (setitem k v d) <= S (length d))%nat.
Proof.
  rewrite <- !(length_map fst), setitem_keys.
  case_decide; rewrite ?length_app; simpl; lia.
Qed.
End setitem_facts.

(** What one directory with a metrics file does to the data collected so
    far. *)
Lemma collect_Ok (all_data all_data' : list (string * gmap string float))
    (rdir : Compare.results_dir) (csv : table) :
  Compare.raw_metrics rdir = Some csv ->
  Compare.collect all_data rdir = Ok all_data' ->
  exists info phases battery ac,
    Compare.get_run_info (Compare.system_info rdir) = Ok info /\
    Compare.parse_csv csv = Ok phases /\
    Compare.aggregate_by_power_mode phases = Ok (battery, ac) /\
    all_data' =
    (if bool_decide (ac = ∅) then id
     else setitem (Compare.de info +:+ "_AC") (Compare.avg <$> ac))
      ((if bool_decide (battery = ∅) then id
        else setitem (Compare.de info +:+ "_Battery") (Compare.avg <$> battery))
         all_data).
Proof.
  unfold Compare.collect. intros ->.
  intros (info & Hinfo & H)%bind_Ok. apply bind_Ok in H as (phases & Hphases & H).
  apply bind_Ok in H as ([battery ac] & Hagg & [= <-]).
  exists info, phases, battery, ac. split_and!; [done..|]. simpl.
  by repeat case_bool_decide.
Qed.

Lemma collect_labels (all_data all_data' : list (string * gmap string float))
    (rdir : Compare.results_dir) :
  Compare.collect all_data rdir = Ok all_data' ->
  (NoDup (map fst all_data) -> NoDup (map fst all_data')) /\
  (length all_data <= length all_data' <= length all_data + 2)%nat.
Proof.
  destruct (Compare.raw_metrics rdir) as [csv|] eqn:Hcsv.
  - intros (info & phases & battery & ac & _ & _ & _ & ->)%(collect_Ok _ _ _ csv Hcsv).
    split.
    + intros Hnodup. repeat case_bool_decide; simpl; repeat apply setitem_nodup; done.
    + repeat case_bool_decide; simpl;
        repeat match goal with
               | |- context [setitem ?k ?v ?d] =>
                   lazymatch goal with
                   | _ : (length d <= length (setitem k v d) <= _)%nat |- _ => fail
                   | _ => pose proof (setitem_length k v d)
                   end
               end; lia.
  - unfold Compare.collect. rewrite Hcsv. intros [= <-]. split; [done|lia].
Qed.

Lemma collected_labels (results_dirs : list Compare.results_dir)
    (all_data0 all_data : list (string * gmap string float)) :
  for_each Compare.collect results_dirs all_data0 = Ok all_data ->
  (NoDup (map fst all_data0) -> NoDup (map fst all_data)) /\
  (length all_data <= length all_data0 + 2 * length results_dirs)%nat.
Proof.
  revert all_data0. induction results_dirs as [|rdir dirs IH]; intros all_data0; simpl.
  - intros [= <-]. split; [done|lia].
  - destruct (Compare.collect all_data0 rdir) as [all_data1|] eqn:E; [|done].
    intros [Hn Hl]%IH. apply collect_labels in E as [Hn1 Hl1]. split; [auto|lia].
Qed.

Lemma comprehension_Forall2 {A B : Type} (f : A -> result B) (l : list A) (ys : list B) :
  comprehension f l = Ok ys -> Forall2 (fun x y => f x = Ok y) l ys.
Proof.
  revert ys. induction l as [|x l IH]; intros ys; simpl.
  - intros [= <-]. constructor.
  - destruct (f x) as [y|] eqn:Hfx; [|done].
    destruct (comprehension f l) as [ys'|]; [|done].
    intros [= <-]. constructor; [done|by apply IH].
Qed.

Lemma comparison_chart_shape all_data labels cfg (c : Compare.chart) :
  Compare.comparison_chart all_data labels cfg = Ok c ->
  Compare.metric_key c = cfg.1.1 /\ Compare.labels c = labels /\
  length (Compare.values c) = length labels.
Proof.
  destruct cfg as [[key yl] ti]. unfold Compare.comparison_chart.
  intros (vals & Hvals & Hc)%bind_Ok. apply comprehension_length in Hvals.
  apply bind_Ok in Hc as (top & _ & [= <-]). done.
Qed.

Lemma dashboard_chart_shape all_data labels cfg (c : Compare.chart) :
  Compare.dashboard_chart all_data labels cfg = Ok c ->
  Compare.metric_key c = cfg.1.1 /\ Compare.labels c = labels /\
  length (Compare.values c) = length labels /\ Compare.ylim_top c = None.
Proof.
  destruct cfg as [[key yl] ti]. unfold Compare.dashboard_chart.
  intros (vals & Hvals & [= <-])%bind_Ok. apply comprehension_length in Hvals. done.
Qed.

Lemma Forall2_keys {A B C : Type} (g : B -> C) (h : A -> C) (l : list A) (ys : list B) :
  Forall2 (fun x y => g y = h x) l ys -> map g ys = map h l.
Proof. induction 1; simpl; congruence. Qed.

(** X12: when charts are drawn there are seven of them, one per metric of
    the configuration in its order, and six dashboard sub-charts for the
    first six; all thirteen share one list of labels, which is not empty,
    has no label twice and at most two labels per result directory, and each
    chart plots one value per label. *)
Theorem charts_share_labels (results_dirs : list Compare.results_dir)
    (charts dashboard : list Compare.chart) :
  Compare.create_comparison_charts results_dirs = Ok (Some (charts, dashboard)) ->
  map Compare.metric_key charts =
    ["power"; "cpu"; "temp"; "mem"; "load"; "disk_read"; "disk_write"] /\
  map Compare.metric_key dashboard =
    ["power"; "cpu"; "temp"; "mem"; "load"; "disk_read"] /\
  exists labels,
    labels <> [] /\ NoDup labels /\
    (length labels <= 2 * length results_dirs)%nat /\
    forall c, c ∈ charts ++ dashboard ->
      Compare.labels c = labels /\ length (Compare.values c) = length labels.
Proof.
  unfold Compare.create_comparison_charts.
  intros (all_data & Hall & Hrun)%bind_Ok.
  destruct all_data as [|kv all_data]; [done|].
  apply bind_Ok in Hrun as (cs & Hcs & Hrun).
  apply bind_Ok in Hrun as (ds & Hds & [= -> ->]).
  apply comprehension_Forall2 in Hcs, Hds.
  apply collected_labels in Hall as [Hnodup Hlen].
  split_and!.
  - change [ "power"; "cpu"; "temp"; "mem"; "load"; "disk_read"; "disk_write" ]
      with (map (fun cfg : string * string * string => cfg.1.1) Compare.metrics_config).
    apply Forall2_keys. eapply Forall2_impl; [exact Hcs|].
    by intros cfg c (? & _)%comparison_chart_shape.
  - change [ "power"; "cpu"; "temp"; "mem"; "load"; "disk_read" ]
      with (map (fun cfg : string * string * string => cfg.1.1)
              (take 6 Compare.metrics_config)).
    apply Forall2_keys. eapply Forall2_impl; [exact Hds|].
    by intros cfg c (? & _)%dashboard_chart_shape.
  - exists (map fst (kv :: all_data)). split_and!.
    + done.
    + apply Hnodup. constructor.
    + rewrite length_map. simpl in *. lia.
    + intros c [Hc|Hc]%elem_of_app.
      * apply list_elem_of_lookup in Hc as [i Hi].
        destruct (Forall2_lookup_r _ _ _ _ _ Hcs Hi)
          as (cfg & _ & (_ & ? & ?)%comparison_chart_shape). done.
      * apply list_elem_of_lookup in Hc as [i Hi].
        destruct (Forall2_lookup_r _ _ _ _ _ Hds Hi)
          as (cfg & _ & (_ & ? & ? & _)%dashboard_chart_shape). done.
Qed.

Lemma charts_share_labels_witness :
  exists charts dashboard,
    Compare.create_comparison_charts [zero_run] = Ok (Some (charts, dashboard)) /\
    map Compare.metric_key charts =
      ["power"; "cpu"; "temp"; "mem"; "load"; "disk_read"; "disk_write"] /\
    exists labels : list string,
      labels <> [] /\ NoDup labels /\ (length labels <= 2 * 1)%nat.
Proof.
  destruct (Compare.create_comparison_charts [zero_run]) as [[[charts dashboard]|]|] eqn:E;
    [|by vm_compute in E..].
  exists charts, dashboard. split; [done|].
  destruct (charts_share_labels [zero_run] charts dashboard E)
    as (Hkeys & _ & labels & Hne & Hnodup & Hlen & _).
  split; [exact Hkeys|]. exists labels. split; [exact Hne|]. split; [exact Hnodup|].
  exact Hlen.
Defined.

(** X13: a result directory without [raw_metrics.csv] changes nothing. *)
Theorem charts_skip_directories_without_metrics (pre post : list Compare.results_dir)
    (rdir : Compare.results_dir) :
  Compare.raw_metrics rdir = None ->
  Compare.create_comparison_charts (pre ++ rdir :: post) =
  Compare.create_comparison_charts (pre ++ post).
Proof.
  intros Hcsv. unfold Compare.create_comparison_charts. rewrite !for_each_app.
  destruct (for_each Compare.collect pre []) as [all_data|]; [|done].
  rewrite !bind_ret_l. simpl. unfold Compare.collect at 1. by rewrite Hcsv.
Qed.

Lemma charts_skip_directories_witness :
  Compare.create_comparison_charts
    ([zero_run] ++ {| Compare.raw_metrics := None; Compare.system_info := Some "Desktop: X" |}
                :: []) =
  Compare.create_comparison_charts ([zero_run] ++ []).
Proof. by apply charts_skip_directories_without_metrics. Defined.




(** ** find_latest_results *)

Lemma insert_newest_first_perm (x : dir_entry) (l : list dir_entry) :
  insert_newest_first x l ≡ₚ x :: l.
Proof.
  induction l as [|y l IH]; simpl; [done|].
  destruct (PrimFloat.ltb _ _); [|done]. rewrite IH. apply Permutation_swap.
Qed.

Lemma sort_newest_first_perm (l : list dir_entry) : sort_newest_first l ≡ₚ l.
Proof.
  induction l as [|x l IH]; simpl; [done|].
  by rewrite insert_newest_first_perm, IH.
Qed.

Lemma slice_to_take {A : Type} (count : Z) (l : list A) :
  exists n, slice_to count l = take n l /\ (0 <= count -> n = Z.to_nat count).
Proof.
  unfold slice_to. destruct (0 <=? count) eqn:E; eexists; (split; [done|]).
  - done.
  - intros Hc. apply Z.leb_gt in E. lia.
Qed.

(** X15: [find_latest_results] returns nothing for a base path that does
    not exist; otherwise it returns paths of entries that are directories
    holding a metrics file, each such entry at most once: with the entries
    left out they are the qualifying entries, and for a count that is not
    negative there are as many as the count allows. *)
Theorem find_latest_results_selects (entries : list dir_entry) (count : Z) :
  find_latest_results None count = [] /\
  find_latest_results (Some entries) count = map entry_path (latest_dirs entries count) /\
  (forall d, d ∈ latest_dirs entries count ->
             d ∈ entries /\ is_dir d = true /\ has_metrics d = true) /\
  (exists rest,
     latest_dirs entries count ++ rest
     ≡ₚ filter (fun d => is_dir d && has_metrics d) entries) /\
  (0 <= count ->
   length (find_latest_results (Some entries) count) =
   Nat.min (Z.to_nat count)
           (length (filter (fun d => is_dir d && has_metrics d) entries))).
Proof.
  split; [done|]. split; [done|]. unfold latest_dirs.
  destruct (slice_to_take count
              (sort_newest_first (filter (fun d => is_dir d && has_metrics d) entries)))
    as (n & -> & Hn).
  split_and!.
  - intros d Hd%subseteq_take. rewrite sort_newest_first_perm in Hd.
    apply list_elem_of_filter in Hd as [Hq Hd]. apply andb_prop_elim in Hq as [??].
    split_and!; [done|by apply Is_true_eq_true..].
  - exists (drop n (sort_newest_first
                      (filter (fun d => is_dir d && has_metrics d) entries))).
    by rewrite take_drop, sort_newest_first_perm.
  - intros Hc. simpl. unfold latest_dirs.
    destruct (slice_to_take count
                (sort_newest_first (filter (fun d => is_dir d && has_metrics d) entries)))
      as (n' & -> & Hn').
    rewrite length_map, length_take, sort_newest_first_perm. by rewrite (Hn' Hc).
Qed.

Lemma find_latest_results_witness :
  find_latest_results (Some example_listing) 4 = ["results/gnome"; "results/kde"] /\
  length (find_latest_results (Some example_listing) 4) =
  Nat.min (Z.to_nat 4)
          (length (filter (fun d => is_dir d && has_metrics d) example_listing)).
Proof.
  destruct (find_latest_results_selects example_listing 4) as (_ & _ & _ & _ & Hlen).
  split; [by vm_compute|]. apply Hlen. lia.
Defined.

(** Comparison of floats is asymmetric. *)
Lemma SFcompare_Lt_Gt (a b : spec_float) :
  SFcompare a b = Some Lt -> SFcompare b a = Some Gt.
Proof.
  destruct a as [sa|sa| |sa ma ea], b as [sb|sb| |sb mb eb]; simpl;
    try (destruct sa); try (destruct sb); try done.
  - rewrite (Z.compare_antisym ea eb). destruct (ea ?= eb)%Z eqn:E; simpl; try done.
    change (Pos.compare_cont Eq mb ma) with (Pos.compare_cont (CompOpp Eq) mb ma).
    rewrite <- Pos.compare_cont_antisym.
    destruct (Pos.compare_cont Eq ma mb); simpl; done.
  - rewrite (Z.compare_antisym ea eb). destruct (ea ?= eb)%Z eqn:E; simpl; try done.
    change (Pos.compare_cont Eq mb ma) with (Pos.compare_cont (CompOpp Eq) mb ma).
    rewrite <- Pos.compare_cont_antisym.
    destruct (Pos.compare_cont Eq ma mb); simpl; done.
Qed.

Lemma ltb_asym (x y : float) : PrimFloat.ltb x y = true -> PrimFloat.ltb y x = false.
Proof.
  rewrite !FloatAxioms.ltb_spec. unfold SFltb.
  destruct (SFcompare (Prim2SF x) (Prim2SF y)) as [[]|] eqn:E; try done.
  intros _. by rewrite (SFcompare_Lt_Gt _ _ E).
Qed.

Lemma insert_newest_first_sorted (x : dir_entry) (l : list dir_entry) :
  newest_first l -> newest_first (insert_newest_first x l).
Proof.
  unfold newest_first. induction l as [|y l IH]; intros Hl; simpl.
  - intros [|i] a b Ha Hb; simpl in *; simplify_eq.
  - destruct (PrimFloat.ltb (st_mtime x) (st_mtime y)) eqn:Hxy.
    + intros [|i] a b Ha Hb.
      * injection Ha as <-. destruct l as [|z l].
        -- injection Hb as <-. by apply ltb_asym.
        -- simpl in Hb.
           destruct (PrimFloat.ltb (st_mtime x) (st_mtime z)) eqn:Hxz;
             injection Hb as <-.
           ++ by apply (Hl 0%nat).
           ++ by apply ltb_asym.
      * apply (IH (fun j a' b' Ha' Hb' => Hl (S j) a' b' Ha' Hb') i a b Ha Hb).
    + intros [|i] a b Ha Hb.
      * injection Ha as <-. injection Hb as <-. exact Hxy.
      * by apply (Hl i).
Qed.

Lemma sort_newest_first_sorted (l : list dir_entry) : newest_first (sort_newest_first l).
Proof.
  induction l as [|x l IH]; simpl.
  - by intros i a b.
  - by apply insert_newest_first_sorted.
Qed.

(** X16: the directories [find_latest_results] keeps come newest first: none
    is followed by one that was modified later. *)
Theorem find_latest_results_newest_first (entries : list dir_entry) (count : Z) :
  newest_first (latest_dirs entries count) /\
  find_latest_results (Some entries) count = map entry_path (latest_dirs entries count).
Proof.
  split; [|done]. unfold latest_dirs.
  destruct (slice_to_take count
              (sort_newest_first (filter (fun d => is_dir d && has_metrics d) entries)))
    as (n & -> & _).
  intros i a b Ha Hb. apply lookup_take_Some in Ha as [Ha _]. apply lookup_take_Some in Hb as [Hb _].
  by eapply sort_newest_first_sorted.
Qed.

(** ** The prime search *)

Lemma range_from_elem (i start : Z) (len : nat) :
  i ∈ Prime.range_from start len <-> start <= i < start + Z.of_nat len.
Proof.
  revert start. induction len as [|k IH]; intros start; simpl.
  - rewrite elem_of_nil. lia.
  - rewrite elem_of_cons, IH. lia.
Qed.

Lemma range_elem (i start stop : Z) :
  i ∈ Prime.range start stop <-> start <= i < stop.
Proof. unfold Prime.range. rewrite range_from_elem. lia. Qed.

Lemma range_from_sorted (start : Z) (len : nat) :
  Sorted.StronglySorted Z.lt (Prime.range_from start len).
Proof.
  revert start. induction len as [|k IH]; intros start; simpl; constructor; [apply IH|].
  apply Forall_forall. intros i Hi%range_from_elem. lia.
Qed.

Lemma trial_true (n : Z) (candidates : list Z) :
  Prime.trial n candidates = true <-> Forall (fun i => n mod i <> 0) candidates.
Proof.
  induction candidates as [|i rest IH]; simpl; [done|].
  rewrite Forall_cons. destruct (n mod i =? 0) eqn:E.
  - apply Z.eqb_eq in E. split; [done|]. by intros [? _].
  - apply Z.eqb_neq in E. rewrite IH. tauto.
Qed.

(** Trial division up to a bound [r] from the integer square root of [n] to
    below [n] decides whether [n] is prime. *)
Lemma trial_prime (n r : Z) :
  2 <= n -> Z.sqrt n <= r < n ->
  Prime.trial n (Prime.range 2 (r + 1)) = true <-> Znumtheory.prime n.
Proof.
  intros Hn Hr. rewrite trial_true, Forall_forall, <- Znumtheory.prime_alt. split.
  - intros Hnone. split; [lia|]. intros k Hk [q Hq].
    pose proof (Z.sqrt_spec n ltac:(lia)) as Hs. cbv zeta in Hs. unfold Z.succ in Hs.
    pose proof (Z.sqrt_nonneg n) as Hs0.
    assert (1 < q) as Hq1.
    { destruct (Z.le_gt_cases q 1) as [Hq1|Hq1]; [|lia].
      assert (q * k <= 1 * k) by (apply Z.mul_le_mono_nonneg_r; lia). lia. }
    destruct (Z.le_gt_cases k (Z.sqrt n)) as [Hle|Hgt].
    + apply (Hnone k); [apply range_elem; lia|].
      apply Z.mod_divide; [lia|]. by exists q.
    + assert (q <= Z.sqrt n) as Hqs.
      { destruct (Z.le_gt_cases q (Z.sqrt n)) as [Hqs|Hqs]; [done|].
        assert ((Z.sqrt n + 1) * (Z.sqrt n + 1) <= q * k)
          by (apply Z.mul_le_mono_nonneg; lia).
        lia. }
      apply (Hnone q); [apply range_elem; lia|].
      apply Z.mod_divide; [lia|]. exists k. lia.
  - intros [_ Hnone] i Hi%range_elem Hmod.
    apply (Hnone i); [lia|]. apply Z.mod_divide; [lia|done].
Qed.

Section prime_search.
Variable pow_half : float -> float.

Lemma is_prime_in_range (n : Z) :
  n < 2 \/ Prime.root_in_range pow_half n = true ->
  exists b, Prime.is_prime pow_half n = Prime.Returns b /\
            (b = true <-> Znumtheory.prime n).
Proof.
  unfold Prime.is_prime, Prime.root_in_range. intros Hn.
  destruct (n <? 2) eqn:E.
  - apply Z.ltb_lt in E. exists false. split; [done|]. split; [done|].
    intros [? _]. lia.
  - apply Z.ltb_ge in E. destruct Hn as [?|Hroot]; [lia|].
    destruct (Prime.int_root pow_half n) as [r|]; [|done].
    apply andb_prop in Hroot as [H1%Z.leb_le H2%Z.ltb_lt].
    eexists. split; [done|]. by apply trial_prime.
Qed.

Lemma keep_primes_spec (ns : list Z) :
  Forall (fun n => n < 2 \/ Prime.root_in_range pow_half n = true) ns ->
  exists ps, Prime.keep_primes pow_half ns = Prime.Returns ps /\
             (forall p, p ∈ ps <-> p ∈ ns /\ Znumtheory.prime p) /\
             (Sorted.StronglySorted Z.lt ns -> Sorted.StronglySorted Z.lt ps).
Proof.
  induction 1 as [|n rest Hn _ (ps & Hps & Hmem & Hsort)]; simpl.
  - exists []. split; [done|]. split; [|done]. intros p. rewrite elem_of_nil. tauto.
  - destruct (is_prime_in_range n Hn) as (b & -> & Hb). rewrite Hps.
    eexists. split; [done|]. split.
    + intros p. destruct b.
      * rewrite !elem_of_cons, Hmem. split; [|tauto].
        intros [->|?]; [|tauto]. split; [by left|]. by apply Hb.
      * rewrite elem_of_cons, Hmem. split; [tauto|].
        intros [[->|?] Hp]; [|done]. apply Hb in Hp. done.
    + intros Hns. apply Sorted.StronglySorted_inv in Hns as [Hrest Hall].
      destruct b; [|by apply Hsort]. constructor; [by apply Hsort|].
      apply Forall_forall. intros p Hp%Hmem. rewrite Forall_forall in Hall.
      apply Hall, Hp.
Qed.
End prime_search.

(** X17: [is_prime(n)] is [False] below 2; from 2 on, whenever
    [int(n ** 0.5)] lies from the integer square root of [n] up to below
    [n], it returns whether [n] is prime. *)
Theorem is_prime_decides_primality (pow_half : float -> float) (n : Z) :
  n < 2 \/ Prime.root_in_range pow_half n = true ->
  exists b, Prime.is_prime pow_half n = Prime.Returns b /\
            (b = true <-> Znumtheory.prime n).
Proof. apply is_prime_in_range. Qed.

Lemma is_prime_97_witness :
  exists b, Prime.is_prime PrimFloat.sqrt 97 = Prime.Returns b /\
            (b = true <-> Znumtheory.prime 97).
Proof. apply is_prime_decides_primality. right. by vm_compute. Defined.

(** X18: [find_primes(start, end)] returns the primes from [start] up to,
    and not including, [end], each once and in ascending order, when
    [int(n ** 0.5)] lies from the integer square root of [n] up to below [n]
    for every [n] from 2 on in that range. *)
Theorem find_primes_lists_the_primes (pow_half : float -> float) (start stop : Z) :
  Forall (fun n => n < 2 \/ Prime.root_in_range pow_half n = true)
         (Prime.range start stop) ->
  exists ps, Prime.find_primes pow_half start stop = Prime.Returns ps /\
             (forall p, p ∈ ps <-> start <= p < stop /\ Znumtheory.prime p) /\
             Sorted.StronglySorted Z.lt ps.
Proof.
  intros Hroot. destruct (keep_primes_spec pow_half _ Hroot) as (ps & Hps & Hmem & Hsort).
  exists ps. split; [done|]. split.
  - intros p. by rewrite Hmem, range_elem.
  - apply Hsort, range_from_sorted.
Qed.

Lemma find_primes_witness :
  exists ps, Prime.find_primes PrimFloat.sqrt (-3) 60 = Prime.Returns ps /\
             (forall p, p ∈ ps <-> -3 <= p < 60 /\ Znumtheory.prime p) /\
             Sorted.StronglySorted Z.lt ps.
Proof.
  apply find_primes_lists_the_primes.
  apply (bool_decide_unpack _). by vm_compute.
Defined.
